(** * zsys: assembly of machines from a flat inventory of ZFS datasets

    Shallow embedding of [internal/machines/machines.go] and the properties
    of its triage and attachment passes.

    Conventions of the embedding:
    - a Go [string] is a Rocq [string] (a sequence of bytes);
    - a Go [map[string]V] is a [gmap string V]; a nil map reads as the empty
      map, and the only writes to [Machine.Users] happen on a map obtained
      from [make];
    - a [*zfs.Dataset] is a [DatasetPtr]: an address together with the
      dataset stored there (datasets are never written after the scan);
    - the order in which [range] visits the keys of a map is not fixed by
      the language: every such loop takes the order from a [MapOrder]
      schedule, and properties are stated for all schedules;
    - a run-time panic (index out of range, nil dereference) is [None]. *)

From Stdlib Require Import ZArith List Ascii String DecimalString.
From stdpp Require Import gmap strings list fin_maps sorting.

Open Scope string_scope.
Open Scope list_scope.

#[local] Set Warnings "-clear-no-such-hyp".

(** ** The part of Go's [strings], [strconv] and [path/filepath] packages
       that the file uses *)

Module GoStrings.

(** [strings.HasPrefix] *)
Fixpoint HasPrefix (s prefix : string) : bool :=
  match prefix, s with
  | EmptyString, _ => true
  | String c p, String c' s' => Ascii.eqb c c' && HasPrefix s' p
  | String _ _, EmptyString => false
  end.

(** [strings.HasSuffix] *)
Fixpoint HasSuffix (s suffix : string) : bool :=
  String.eqb s suffix ||
  match s with
  | EmptyString => false
  | String _ s' => HasSuffix s' suffix
  end.

(** [strings.Contains] *)
Fixpoint Contains (s substr : string) : bool :=
  HasPrefix s substr ||
  match s with
  | EmptyString => false
  | String _ s' => Contains s' substr
  end.

(** [strings.Split], for the one-byte separators of every call site
    (["/"], [":"], ["_"], ["@"]).  The result is never empty. *)
Fixpoint Split (s : string) (sep : ascii) : list string :=
  match s with
  | EmptyString => [EmptyString]
  | String c s' =>
      if Ascii.eqb c sep then EmptyString :: Split s' sep
      else match Split s' sep with
           | x :: xs => String c x :: xs
           | [] => [String c EmptyString]
           end
  end.

(** [strings.Join] *)
Fixpoint Join (elems : list string) (sep : string) : string :=
  match elems with
  | [] => EmptyString
  | [x] => x
  | x :: xs => x +:+ sep +:+ Join xs sep
  end.

(** [strings.LastIndex] for a one-byte needle; [-1] when absent. *)
Fixpoint LastIndex (s : string) (c : ascii) : Z :=
  match s with
  | EmptyString => (-1)%Z
  | String a s' =>
      let r := LastIndex s' c in
      if (0 <=? r)%Z then (r + 1)%Z
      else if Ascii.eqb a c then 0%Z else (-1)%Z
  end.

(** The slice expression [s[n:]]. *)
Fixpoint sliceFrom (n : nat) (s : string) : string :=
  match n, s with
  | O, _ => s
  | S n', String _ s' => sliceFrom n' s'
  | S _, EmptyString => EmptyString
  end.

(** [strings.ToLower] on ASCII letters (dataset names are ASCII). *)
Definition lowerByte (c : ascii) : ascii :=
  let n := nat_of_ascii c in
  if (65 <=? n)%nat && (n <=? 90)%nat then ascii_of_nat (n + 32) else c.

Fixpoint ToLower (s : string) : string :=
  match s with
  | EmptyString => EmptyString
  | String c s' => String (lowerByte c) (ToLower s')
  end.

(** [strconv.Itoa] *)
Definition Itoa (i : Z) : string := NilZero.string_of_int (Z.to_int i).

(** [filepath.Base] with ["/"] as the path separator. *)
Fixpoint trimTrailingSlashes (s : string) : string :=
  match s with
  | EmptyString => EmptyString
  | String c s' =>
      let t := trimTrailingSlashes s' in
      if Ascii.eqb c "/" && String.eqb t EmptyString then EmptyString
      else String c t
  end.

Definition Base (path : string) : string :=
  if String.eqb path EmptyString then "."
  else
    let p := List.last (Split (trimTrailingSlashes path) "/") EmptyString in
    if String.eqb p EmptyString then "/" else p.

(** What the Go documentation says of the three tests, as propositions. *)
Definition isPrefixOf (p s : string) : Prop := ∃ r, s = p +:+ r.
Definition isSuffixOf (x s : string) : Prop := ∃ l, s = l +:+ x.
Definition isSubstringOf (x s : string) : Prop := ∃ l r, s = l +:+ x +:+ r.

End GoStrings.
Import GoStrings.

(** ** Data model *)

(** [time.Time] values built by [time.Unix(sec, nsec)]. *)
Module time.
Record Time := Unix { sec : Z; nsec : Z }.
End time.

(** The fields of [zfs.Dataset] that [machines.go] reads.  The declaration
    lives in the [zfs] package; the field list is the volume of the data
    model.  [LastUsed] is a Go [int] (64 bits on the supported platforms),
    so that [int64(d.LastUsed)] is the identity. *)
Module zfs.
Record Dataset := {
  Name : string;
  Mountpoint : string;
  CanMount : string;
  IsSnapshot : bool;
  Origin : string;
  BootFS : bool;
  BootfsDatasets : string;
  LastUsed : Z
}.
End zfs.

(** [*zfs.Dataset] *)
Record DatasetPtr := Ptr { addr : nat; deref : zfs.Dataset }.

Definition ptrEq (p q : DatasetPtr) : bool := Nat.eqb (addr p) (addr q).

Definition int64 (i : Z) : Z := i.

Module UserState.
Record t := mk {
  ID : string;
  Datasets : list DatasetPtr
}.
End UserState.
Abbreviation UserState := UserState.t.

Module State.
Record t := mk {
  ID : string;
  IsZsys : bool;
  LastUsed : option time.Time;
  SystemDatasets : list DatasetPtr;
  UserDatasets : list DatasetPtr;
  PersistentDatasets : list DatasetPtr
}.

Definition appendSystemDatasets (s : t) (ds : list DatasetPtr) : t :=
  mk (ID s) (IsZsys s) (LastUsed s) (SystemDatasets s ++ ds)
     (UserDatasets s) (PersistentDatasets s).
Definition appendUserDatasets (s : t) (ds : list DatasetPtr) : t :=
  mk (ID s) (IsZsys s) (LastUsed s) (SystemDatasets s)
     (UserDatasets s ++ ds) (PersistentDatasets s).
Definition setPersistentDatasets (s : t) (ds : list DatasetPtr) : t :=
  mk (ID s) (IsZsys s) (LastUsed s) (SystemDatasets s) (UserDatasets s) ds.
Definition setLastUsed (s : t) (lu : option time.Time) : t :=
  mk (ID s) (IsZsys s) lu (SystemDatasets s) (UserDatasets s)
     (PersistentDatasets s).
End State.
Abbreviation State := State.t.

Module Machine.
(** [State] is the embedded struct; Go promotes its fields ([m.ID]). *)
Record t := mk {
  State : State.t;
  Users : gmap string (gmap string UserState);
  History : gmap string State.t
}.

Definition ID (m : t) : string := State.ID (State m).
Definition setState (m : t) (s : State.t) : t := mk s (Users m) (History m).
Definition setUsers (m : t) (u : gmap string (gmap string UserState)) : t :=
  mk (State m) u (History m).
Definition setHistory (m : t) (h : gmap string State.t) : t :=
  mk (State m) (Users m) h.
End Machine.
Abbreviation Machine := Machine.t.

Record originAndChildren := {
  origin : string;
  children : list DatasetPtr
}.

Definition userdatasetsContainerName : string := "/userdata/".

(** ** Map iteration *)

(** The keys of a map, visited by increasing rank.  Any visiting order is
    the order of some rank. *)
Definition byRank {K : Type} (rank : K → nat) : relation K :=
  λ a b, (rank a ≤ rank b)%nat.

#[global] Instance byRank_dec {K : Type} (rank : K → nat) (a b : K) :
  Decision (byRank rank a b) := le_dec (rank a) (rank b).

Definition rangeOrder {K : Type} (rank : K → nat) (keys : list K) : list K :=
  merge_sort (byRank rank) keys.

Definition mapKeys {V : Type} (m : gmap string V) : list string :=
  (map_to_list m).*1.

(** One rank per [range] over a map in the file, given what the loop is
    running for (the dataset under triage, the machine, the state). *)
Record MapOrder := {
  machinesOrder : DatasetPtr → string → nat;            (* line 296 *)
  historyOrder : DatasetPtr → string → string → nat;    (* line 322 *)
  rootsOrder : nat → nat;                               (* line 175 *)
  userRootsOrder : string → nat → nat;                  (* line 357 *)
  userdatasOrder : string → nat → nat;                  (* line 375 *)
  usersOrder : string → string → nat;                   (* line 434 *)
  historyUsersOrder : string → string → nat;            (* line 492 *)
  userStatesOrder : string → string → string → nat      (* lines 496, 510 *)
}.

(** ** Helpers of the package that are declared outside [machines.go] *)

Definition error : Type := string.

(** The functions [machines.go] calls but does not define, and the [zfs]
    adapter.  [Zfs] is the adapter's state; a Go [map[string]*string] is a
    function to [option string] ([None]: no entry, a nil pointer); the
    pointer-keyed map returned by [getRootDatasets] is the list of its
    entries; [findFromRoot] gives the key under which the machine it points
    to is stored. *)
Class Helpers := {
  Zfs : Type;
  zfsDatasets : Zfs → list zfs.Dataset;
  zfsRefresh : Zfs → Zfs * option error;
  sortDatasets : list DatasetPtr → list DatasetPtr;
  resolveOrigin : list DatasetPtr → string → string → option string;
  isChild : string → zfs.Dataset → bool * option error;
  getRootDatasets : list DatasetPtr → list (DatasetPtr * list DatasetPtr);
  appendIfNotPresent :
    list DatasetPtr → list DatasetPtr → bool → list DatasetPtr;
  bootParametersFromCmdline : string → string * string;
  findFromRoot : gmap string Machine → string → option string
}.

(** Modelled from the spec: [sortedMachineKeys] and [sortedStateKeys] are
    not in [machines.go]; the data model says iteration for assembly is
    lexicographic over machine keys and over history keys. *)
Definition sortedKeys {V : Type} (m : gmap string V) : list string :=
  merge_sort String.le (mapKeys m).
Definition sortedMachineKeys (all : gmap string Machine) : list string :=
  sortedKeys all.
Definition sortedStateKeys (h : gmap string State) : list string :=
  sortedKeys h.

(** ** Triage *)

Section Triage.
Context {helpers : Helpers}.
Variable order : MapOrder.

(** [d.Mountpoint == "/" && d.CanMount != "off" && origin != nil &&
    *origin == name] *)
Definition isRootOf (d : zfs.Dataset) (origin : option string)
    (name : string) : bool :=
  String.eqb (zfs.Mountpoint d) "/"
  && negb (String.eqb (zfs.CanMount d) "off")
  && match origin with
     | Some o => String.eqb o name
     | None => false
     end.

(** [lu := time.Unix(int64(d.LastUsed), 0)], taken when
    [d.LastUsed != 0]. *)
Definition lastUsedOf (d : zfs.Dataset) : option time.Time :=
  if Z.eqb (zfs.LastUsed d) 0 then None
  else Some (time.Unix (int64 (zfs.LastUsed d)) 0).

(** The [State] literal of lines 274-278 and 308-312. *)
Definition stateOf (d : DatasetPtr) : State :=
  State.mk (zfs.Name (deref d)) (zfs.BootFS (deref d)) None [d] [] [].

Definition newMachineFromDataset (d : DatasetPtr) (origin : option string)
    : option Machine :=
  if isRootOf (deref d) origin "" then
    let m := Machine.mk (stateOf d) ∅ ∅ in
    let m :=
      if negb (Z.eqb (zfs.LastUsed (deref d)) 0)
      then Machine.setState m
             (State.setLastUsed (Machine.State m) (lastUsedOf (deref d)))
      else m in
    Some m
  else None.

(** [ok, err := isChild(name, d)] followed by [err != nil] (a warning is
    logged) and [else if ok]. *)
Definition isChildOk (name : string) (d : zfs.Dataset) : bool :=
  match isChild name d with
  | (_, Some _) => false
  | (ok, None) => ok
  end.

(** Lines 308-317. *)
Definition newHistoryState (d : DatasetPtr) : State :=
  let h := stateOf d in
  if negb (Z.eqb (zfs.LastUsed (deref d)) 0)
  then State.setLastUsed h (lastUsedOf (deref d))
  else h.

(** The loop of lines 322-329 over the history states of one machine,
    visited in the order [keys]; [None] when no state took the dataset. *)
Fixpoint attachHistoryChild (d : DatasetPtr) (history : gmap string State)
    (keys : list string) : option (gmap string State) :=
  match keys with
  | [] => None
  | k :: keys' =>
      match history !! k with
      | None => attachHistoryChild d history keys'
      | Some h =>
          if isChildOk (State.ID h) (deref d)
          then Some (<[k := State.appendSystemDatasets h [d]]> history)
          else attachHistoryChild d history keys'
      end
  end.

(** The loop of lines 296-330 over the machines, visited in the order
    [keys]. *)
Fixpoint attachToMachines (d : DatasetPtr) (origin : option string)
    (all : gmap string Machine) (keys : list string)
    : gmap string Machine * bool :=
  match keys with
  | [] => (all, false)
  | k :: keys' =>
      match all !! k with
      | None => attachToMachines d origin all keys'
      | Some m =>
          if isChildOk (Machine.ID m) (deref d) then
            (<[k := Machine.setState m
                      (State.appendSystemDatasets (Machine.State m) [d])]>
               all, true)
          else if isRootOf (deref d) origin (Machine.ID m) then
            (<[k := Machine.setHistory m
                      (<[zfs.Name (deref d) := newHistoryState d]>
                         (Machine.History m))]> all, true)
          else
            match attachHistoryChild d (Machine.History m)
                    (rangeOrder (historyOrder order d k)
                       (mapKeys (Machine.History m))) with
            | Some history' =>
                (<[k := Machine.setHistory m history']> all, true)
            | None => attachToMachines d origin all keys'
            end
      end
  end.

Definition attachSystemAndHistory (all : gmap string Machine)
    (d : DatasetPtr) (origin : option string)
    : gmap string Machine * bool :=
  attachToMachines d origin all
    (rangeOrder (machinesOrder order d) (mapKeys all)).

(** The state of the loop of [triageDatasets]: the receiver's [all] map
    and the three result slices. *)
Record Triage := {
  all : gmap string Machine;
  boots : list DatasetPtr;
  userdatas : list DatasetPtr;
  persistents : list DatasetPtr
}.

(** One iteration of the loop of lines 224-264; [d] is the address taken
    by [d := d]. *)
Definition triageDataset (origins : string → option string)
    (t : Triage) (d : DatasetPtr) : Triage :=
  let name := zfs.Name (deref d) in
  match newMachineFromDataset d (origins name) with
  | Some m =>
      {| all := <[name := m]> (all t); boots := boots t;
         userdatas := userdatas t; persistents := persistents t |}
  | None =>
      let '(all', ok) := attachSystemAndHistory (all t) d (origins name) in
      if ok then
        {| all := all'; boots := boots t;
           userdatas := userdatas t; persistents := persistents t |}
      else if HasPrefix (zfs.Mountpoint (deref d)) "/boot" then
        {| all := all t; boots := boots t ++ [d];
           userdatas := userdatas t; persistents := persistents t |}
      else if Contains (ToLower name) userdatasetsContainerName then
        {| all := all t; boots := boots t;
           userdatas := userdatas t ++ [d]; persistents := persistents t |}
      else if negb (String.eqb (zfs.CanMount (deref d)) "on") then t
      else
        {| all := all t; boots := boots t;
           userdatas := userdatas t; persistents := persistents t ++ [d] |}
  end.

(** The [i]-th element of [allDatasets] is copied to a variable of its
    own, whose address is [i]. *)
Definition addressed (allDatasets : list zfs.Dataset) : list DatasetPtr :=
  imap Ptr allDatasets.

Definition triageFrom (origins : string → option string)
    (t : Triage) (ds : list DatasetPtr) : Triage :=
  fold_left (triageDataset origins) ds t.

(** The state on entry: the receiver's machines and three nil slices. *)
Definition triageStart (machinesAll : gmap string Machine) : Triage :=
  {| all := machinesAll; boots := []; userdatas := []; persistents := [] |}.

Definition triageDatasets (machinesAll : gmap string Machine)
    (allDatasets : list zfs.Dataset) (origins : string → option string)
    : Triage :=
  triageFrom origins (triageStart machinesAll) (addressed allDatasets).

(** Lines 153-166 and the argument of line 169: main datasets, then
    clones, then the others, each in the order of [sortedDataset]. *)
Definition mainDatasets (origins : string → option string)
    (sorted : list DatasetPtr) : list zfs.Dataset :=
  deref <$> List.filter
    (λ d, match origins (zfs.Name (deref d)) with
          | Some o => String.eqb o ""
          | None => false
          end) sorted.
Definition cloneDatasets (origins : string → option string)
    (sorted : list DatasetPtr) : list zfs.Dataset :=
  deref <$> List.filter
    (λ d, match origins (zfs.Name (deref d)) with
          | Some o => negb (String.eqb o "")
          | None => false
          end) sorted.
Definition otherDatasets (origins : string → option string)
    (sorted : list DatasetPtr) : list zfs.Dataset :=
  deref <$> List.filter
    (λ d, match origins (zfs.Name (deref d)) with
          | Some _ => false
          | None => true
          end) sorted.
Definition bucketed (origins : string → option string)
    (sorted : list DatasetPtr) : list zfs.Dataset :=
  (mainDatasets origins sorted ++ cloneDatasets origins sorted)
    ++ otherDatasets origins sorted.

End Triage.

(** ** Attachment *)

(** [e := strings.Split(id, "/")] followed by [e[len(e)-1]]. *)
Definition lastSegment (id : string) : string :=
  List.last (Split id "/") "".

(** The loop of lines 363-367 over the elements of the colon-separated
    list; the second test reads the whole list, not the element. *)
Definition linkedTo (bootfsDatasets id : string) : bool :=
  fold_left
    (λ valid bootfsDataset,
       if String.eqb bootfsDataset id
          || HasPrefix bootfsDatasets (id +:+ "/")
       then true else valid)
    (Split bootfsDatasets ":") false.

(** The loops of lines 440-445 and 517-523: the same test, leaving the
    loop at the first element that passes. *)
Definition linkedToAny (bootfsDatasets id : string) : bool :=
  existsb
    (λ bootfsDataset,
       String.eqb bootfsDataset id
       || HasPrefix bootfsDatasets (id +:+ "/"))
    (Split bootfsDatasets ":").

(** Lines 343-351. *)
Fixpoint machineBoots (machineDatasetID : string) (boots : list DatasetPtr)
    : list DatasetPtr :=
  match boots with
  | [] => []
  | d :: boots' =>
      if zfs.IsSnapshot (deref d) then machineBoots machineDatasetID boots'
      else if HasSuffix (zfs.Name (deref d)) ("/" +:+ machineDatasetID)
              || Contains (zfs.Name (deref d))
                   ("/" +:+ machineDatasetID +:+ "/")
      then d :: machineBoots machineDatasetID boots'
      else machineBoots machineDatasetID boots'
  end.

(** [userdatas[p]]: the entry whose key is the pointer [p], the zero value
    when there is none. *)
Definition lookupUserdata (userdatas : list (DatasetPtr * originAndChildren))
    (p : DatasetPtr) : originAndChildren :=
  match List.find (λ e, ptrEq (fst e) p) userdatas with
  | Some e => snd e
  | None => {| origin := ""; children := [] |}
  end.

(** Lines 377-386. *)
Definition isRelative (userdatas : list (DatasetPtr * originAndChildren))
    (userRootDatasets : list DatasetPtr) (r : DatasetPtr)
    (dprop : originAndChildren) : bool :=
  existsb
    (λ userRootDataset,
       let originUserRootDataset :=
         origin (lookupUserdata userdatas userRootDataset) in
       ptrEq r userRootDataset
       || (negb (String.eqb (origin dprop) "")
           && String.eqb (origin dprop) originUserRootDataset)
       || (String.eqb originUserRootDataset ""
           && String.eqb (origin dprop) (zfs.Name (deref userRootDataset)))
       || (String.eqb (origin dprop) ""
           && String.eqb originUserRootDataset (zfs.Name (deref r))))
    userRootDatasets.

(** Lines 392-396. *)
Definition userOf (r : DatasetPtr) : string :=
  let t := Split (Base (zfs.Name (deref r))) "_" in
  if (1 <? length t)%nat then Join (take (length t - 1) t) "_"
  else hd "" t.

(** Lines 404-413. *)
Definition isCurrent (userRootDatasets : list DatasetPtr) (r : DatasetPtr)
    : bool :=
  existsb (λ userRootDataset, ptrEq r userRootDataset) userRootDatasets.

Definition timestampOf (userRootDatasets : list DatasetPtr) (r : DatasetPtr)
    : string :=
  if isCurrent userRootDatasets r then "current"
  else Itoa (zfs.LastUsed (deref r)).

(** Lines 416-429. *)
Definition userStateOf (r : DatasetPtr) (dprop : originAndChildren)
    : UserState :=
  let delimiter := if zfs.IsSnapshot (deref r) then "@"%char else "_"%char in
  let t := Split (Base (zfs.Name (deref r))) delimiter in
  let id := if (1 <? length t)%nat then List.last t "" else "" in
  UserState.mk id (r :: children dprop).

Section Attach.
Variable order : MapOrder.

(** Lines 356-372. *)
Definition userRootDatasetsOf (id : string)
    (userdatas : list (DatasetPtr * originAndChildren))
    : list DatasetPtr :=
  List.filter
    (λ r, negb (zfs.IsSnapshot (deref r))
          && linkedTo (zfs.BootfsDatasets (deref r)) id)
    (fst <$> rangeOrder (λ e, userRootsOrder order id (addr (fst e)))
               userdatas).

(** One iteration of the loop of lines 375-431. *)
Definition addUser (userdatas : list (DatasetPtr * originAndChildren))
    (userRootDatasets : list DatasetPtr)
    (users : gmap string (gmap string UserState))
    (e : DatasetPtr * originAndChildren)
    : gmap string (gmap string UserState) :=
  let '(r, dprop) := e in
  if negb (isRelative userdatas userRootDatasets r dprop) then users
  else
    let user := userOf r in
    let users :=
      match users !! user with
      | None => <[user := ∅]> users
      | Some _ => users
      end in
    let timestamp := timestampOf userRootDatasets r in
    let states := default ∅ (users !! user) in
    match states !! timestamp with
    | Some _ => users
    | None =>
        <[user := <[timestamp := userStateOf r dprop]> states]> users
    end.

Definition buildUsers (id : string)
    (userdatas : list (DatasetPtr * originAndChildren))
    (users : gmap string (gmap string UserState))
    : gmap string (gmap string UserState) :=
  fold_left (addUser userdatas (userRootDatasetsOf id userdatas))
    (rangeOrder (λ e, userdatasOrder order id (addr (fst e))) userdatas)
    users.

(** Lines 439-446 for one user state. *)
Definition promoted (id : string) (userState : UserState)
    : list DatasetPtr :=
  List.filter (λ d, linkedToAny (zfs.BootfsDatasets (deref d)) id)
    (UserState.Datasets userState).

(** Lines 434-447. *)
Definition currentUserDatasets (id : string)
    (users : gmap string (gmap string UserState)) : list DatasetPtr :=
  flat_map
    (λ user,
       match default ∅ (users !! user) !! "current" with
       | Some userState => promoted id userState
       | None => []
       end)
    (rangeOrder (usersOrder order id) (mapKeys users)).

(** Lines 465-471: the last segment of the state's id and its snapshot
    tag ([""] when there is none). *)
Definition snapshotOf (stateDatasetID : string) : string :=
  let j := LastIndex stateDatasetID "@" in
  if (0 <? j)%Z then sliceFrom (Z.to_nat (j + 1)) stateDatasetID
  else "".

(** Lines 475-488. *)
Fixpoint historyBoots (snapshot stateDatasetID : string)
    (boots : list DatasetPtr) : list DatasetPtr :=
  match boots with
  | [] => []
  | d :: boots' =>
      if negb (String.eqb snapshot "")
         && HasSuffix (zfs.Name (deref d)) ("@" +:+ snapshot)
      then d :: historyBoots snapshot stateDatasetID boots'
      else if HasSuffix (zfs.Name (deref d)) stateDatasetID
              || Contains (zfs.Name (deref d))
                   ("/" +:+ stateDatasetID +:+ "/")
      then d :: historyBoots snapshot stateDatasetID boots'
      else historyBoots snapshot stateDatasetID boots'
  end.

(** Lines 496-504; [userState.Datasets[0]] panics on an empty slice. *)
Fixpoint snapshotUserDatasets (snapshot : string)
    (userStates : list UserState) : option (list DatasetPtr) :=
  match userStates with
  | [] => Some []
  | userState :: userStates' =>
      match UserState.Datasets userState with
      | [] => None
      | d0 :: _ =>
          rest ← snapshotUserDatasets snapshot userStates';
          if negb (zfs.IsSnapshot (deref d0)) then Some rest
          else if String.eqb (UserState.ID userState) snapshot
          then Some (UserState.Datasets userState ++ rest)%list
          else Some rest
      end
  end.

(** Lines 510-529: the first state of the user with a linked dataset
    ends the loop. *)
Fixpoint cloneUserDatasets (id : string) (userStates : list UserState)
    : option (list DatasetPtr) :=
  match userStates with
  | [] => Some []
  | userState :: userStates' =>
      match UserState.Datasets userState with
      | [] => None
      | d0 :: _ =>
          if zfs.IsSnapshot (deref d0)
          then cloneUserDatasets id userStates'
          else
            match promoted id userState with
            | [] => cloneUserDatasets id userStates'
            | found => Some found
            end
      end
  end.

(** The states of one user in the order of [range userdatas[user]]. *)
Definition userStatesOf (id user : string)
    (users : gmap string (gmap string UserState)) : list UserState :=
  let states := default ∅ (users !! user) in
  omap (λ k, states !! k)
    (rangeOrder (userStatesOrder order id user) (mapKeys states)).

(** Lines 491-530. *)
Fixpoint historyUserDatasets (id snapshot : string)
    (users : gmap string (gmap string UserState)) (keys : list string)
    : option (list DatasetPtr) :=
  match keys with
  | [] => Some []
  | user :: keys' =>
      ds ← (if negb (String.eqb snapshot "")
            then snapshotUserDatasets snapshot (userStatesOf id user users)
            else cloneUserDatasets id (userStatesOf id user users));
      rest ← historyUserDatasets id snapshot users keys';
      Some (ds ++ rest)%list
  end.

Definition attachRemainingDatasetsForHistory (h : State)
    (boots persistents : list DatasetPtr)
    (userdatas : gmap string (gmap string UserState)) : option State :=
  let stateDatasetID := lastSegment (State.ID h) in
  let snapshot := snapshotOf stateDatasetID in
  let bootsDataset := historyBoots snapshot stateDatasetID boots in
  let h := State.appendSystemDatasets h bootsDataset in
  userDatasets ← historyUserDatasets (State.ID h) snapshot userdatas
                   (rangeOrder (historyUsersOrder order (State.ID h))
                      (mapKeys userdatas));
  let h := State.appendUserDatasets h userDatasets in
  Some (State.setPersistentDatasets h persistents).

(** The loop of lines 454-457 over the sorted history keys. *)
Fixpoint attachHistory (boots persistents : list DatasetPtr)
    (users : gmap string (gmap string UserState))
    (history : gmap string State) (keys : list string)
    : option (gmap string State) :=
  match keys with
  | [] => Some history
  | k :: keys' =>
      h ← history !! k;
      h' ← attachRemainingDatasetsForHistory h boots persistents users;
      attachHistory boots persistents users (<[k := h']> history) keys'
  end.

Definition attachRemainingDatasets (m : Machine)
    (boots persistents : list DatasetPtr)
    (userdatas : list (DatasetPtr * originAndChildren)) : option Machine :=
  let machineDatasetID := lastSegment (Machine.ID m) in
  let bootsDataset := machineBoots machineDatasetID boots in
  let s := State.appendSystemDatasets (Machine.State m) bootsDataset in
  let users := buildUsers (Machine.ID m) userdatas (Machine.Users m) in
  let s :=
    State.appendUserDatasets s (currentUserDatasets (Machine.ID m) users) in
  let s := State.setPersistentDatasets s persistents in
  history ← attachHistory boots persistents users (Machine.History m)
              (sortedStateKeys (Machine.History m));
  Some (Machine.mk s ∅ history).

End Attach.

(** ** The [Machines] value and its refresh *)

Module Machines.
(** [current] points into [all]: it is the key of the machine it points
    to.  [z] is the address of the [zfs.Zfs] object, which the value
    shares with every value it was refreshed from. *)
Record t := mk {
  all : gmap string Machine;
  cmdline : string;
  current : option string;
  nextState : option State;
  allSystemDatasets : list DatasetPtr;
  allUsersDatasets : list DatasetPtr;
  z : nat
}.
End Machines.
Abbreviation Machines := Machines.t.

(** How a call ends: it returns its [error] result or it panics. *)
Inductive outcome :=
| Returned (err : option error)
| Panicked.

(** Lines 203-208. *)
Fixpoint mountableUserDatasets (flattenedUserDatas : list DatasetPtr)
    : list DatasetPtr :=
  match flattenedUserDatas with
  | [] => []
  | d :: rest =>
      if String.eqb (zfs.CanMount (deref d)) "off"
      then mountableUserDatasets rest
      else d :: mountableUserDatasets rest
  end.

Section Refresh.
Context {helpers : Helpers}.
Variable order : MapOrder.

(** Lines 197-200 for one machine. *)
Fixpoint historySystemDatasets (history : gmap string State)
    (keys : list string) : option (list DatasetPtr) :=
  match keys with
  | [] => Some []
  | k :: keys' =>
      h ← history !! k;
      rest ← historySystemDatasets history keys';
      Some (State.SystemDatasets h ++ rest)%list
  end.

(** The loop of lines 191-201 over the sorted machine keys. *)
Fixpoint attachMachines (boots persistents : list DatasetPtr)
    (userdatas : list (DatasetPtr * originAndChildren))
    (all : gmap string Machine) (allSystemDatasets : list DatasetPtr)
    (keys : list string)
    : option (gmap string Machine * list DatasetPtr) :=
  match keys with
  | [] => Some (all, allSystemDatasets)
  | k :: keys' =>
      m ← all !! k;
      m' ← attachRemainingDatasets order m boots persistents userdatas;
      hs ← historySystemDatasets (Machine.History m')
             (sortedStateKeys (Machine.History m'));
      attachMachines boots persistents userdatas (<[k := m']> all)
        ((allSystemDatasets ++ State.SystemDatasets (Machine.State m'))
           ++ hs)%list
        keys'
  end.

(** Lines 180-186; [*originsUserDatasets[k.Name]] panics when the
    resolver has no entry for the root. *)
Definition withOrigins (originsUserDatasets : string → option string)
    (rootUserDatasets : list (DatasetPtr * list DatasetPtr))
    : option (list (DatasetPtr * originAndChildren)) :=
  mapM (λ e, o ← originsUserDatasets (zfs.Name (deref (fst e)));
             Some (fst e, {| origin := o; children := snd e |}))
       rootUserDatasets.

(** Lines 139-169: the datasets of the adapter are addressed, sorted,
    resolved, put in the three groups and triaged. *)
Definition sortedDatasetsOf (zfsState : Zfs) : list DatasetPtr :=
  let zDatasets := zfsDatasets zfsState in
  let datasets := imap Ptr zDatasets in
  sortDatasets datasets.

Definition triageOf (zfsState : Zfs) (machinesAll : gmap string Machine)
    : Triage :=
  let sortedDataset := sortedDatasetsOf zfsState in
  let origins := resolveOrigin sortedDataset "/" in
  triageDatasets order machinesAll (bucketed origins sortedDataset) origins.

Definition refresh (heap : gmap nat Zfs) (machines : Machines)
    : option (Machines * option error) :=
  zfsState ← heap !! Machines.z machines;
  let t := triageOf zfsState (Machines.all machines) in
  let flattenedUserDatas := userdatas t in
  let rootUserDatasets := getRootDatasets flattenedUserDatas in
  let rootsOnlyUserDatasets :=
    rangeOrder (λ k, rootsOrder order (addr k)) (fst <$> rootUserDatasets) in
  let originsUserDatasets := resolveOrigin rootsOnlyUserDatasets "" in
  userdatas ← withOrigins originsUserDatasets rootUserDatasets;
  attached ← attachMachines (boots t) (persistents t) userdatas (all t)
               (Machines.allSystemDatasets machines)
               (sortedMachineKeys (all t));
  let allUsersDatasets :=
    (Machines.allUsersDatasets machines
       ++ mountableUserDatasets flattenedUserDatas)%list in
  let allSystemDatasets := appendIfNotPresent attached.2 (boots t) true in
  let root := (bootParametersFromCmdline (Machines.cmdline machines)).1 in
  let m := findFromRoot attached.1 root in
  Some (Machines.mk attached.1 (Machines.cmdline machines) m
          (Machines.nextState machines) allSystemDatasets allUsersDatasets
          (Machines.z machines),
        None).

(** The fresh value of lines 114-118 (and of lines 100-104). *)
Definition emptyMachines (cmdline : string) (z : nat) : Machines :=
  Machines.mk ∅ cmdline None None [] [] z.

(** [Refresh]: the heap holds the [zfs.Zfs] objects; the result is the
    heap, the receiver and how the call ended. *)
Definition Refresh (heap : gmap nat Zfs) (machines : Machines)
    : gmap nat Zfs * Machines * outcome :=
  let newMachines :=
    emptyMachines (Machines.cmdline machines) (Machines.z machines) in
  match heap !! Machines.z newMachines with
  | None => (heap, machines, Panicked)
  | Some zfsState =>
      let '(zfsState', err) := zfsRefresh zfsState in
      let heap := <[Machines.z newMachines := zfsState']> heap in
      match err with
      | Some e => (heap, machines, Returned (Some e))
      | None =>
          match refresh heap newMachines with
          | None => (heap, machines, Panicked)
          | Some (_, Some e) => (heap, machines, Returned (Some e))
          | Some (newMachines, None) => (heap, newMachines, Returned None)
          end
      end
  end.

End Refresh.

(** ** The helpers and the adapter, as the specification describes them

    Used to run the model on concrete inventories; every property below
    that mentions a helper holds for all [Helpers]. *)

Module SpecHelpers.

(** Modelled from the spec: the inventory adapter is not in
    [machines.go].  It yields the volumes of its cache, and its refresh
    re-scans and replaces the cache; a failed scan is an error.  The
    scans to come are part of the state, [None] for one that fails. *)
Record MockZfs := {
  cache : list zfs.Dataset;
  scans : list (option (list zfs.Dataset))
}.

Definition mockRefresh (s : MockZfs) : MockZfs * option error :=
  match scans s with
  | Some ds :: rest => ({| cache := ds; scans := rest |}, None)
  | None :: rest =>
      ({| cache := cache s; scans := rest |},
       Some "couldn't scan zfs filesystem")
  | [] => (s, Some "couldn't scan zfs filesystem")
  end.

(** The dataset part of a name: what precedes the first ["@"]. *)
Definition baseName (name : string) : string := hd "" (Split name "@").

(** Modelled from the spec: the sort of section 4.1 is not in
    [machines.go].  Names are compared byte by byte, with ["@"] below
    ["/"], so that a parent precedes its snapshots and these its
    children. *)
Definition byteRank (c : ascii) : nat :=
  if Ascii.eqb c "@" then 93 else 2 * nat_of_ascii c.

Fixpoint nameLe (a b : string) : bool :=
  match a, b with
  | EmptyString, _ => true
  | String _ _, EmptyString => false
  | String x a', String y b' =>
      if (byteRank x <? byteRank y)%nat then true
      else if (byteRank y <? byteRank x)%nat then false
      else nameLe a' b'
  end.

Definition sortByName (ds : list DatasetPtr) : list DatasetPtr :=
  merge_sort (λ p q, Is_true (nameLe (zfs.Name (deref p))
                                    (zfs.Name (deref q)))) ds.

Definition findByName (ds : list DatasetPtr) (name : string)
    : option DatasetPtr :=
  List.find (λ d, String.eqb (zfs.Name (deref d)) name) ds.

(** Modelled from the spec: the origin resolver of section 4.2 is not in
    [machines.go].  The walk follows [origin] from volume to volume
    (through the dataset of a snapshot) until a volume without origin;
    it gives up when a name is not in the input. *)
Fixpoint walkOrigin (fuel : nat) (ds : list DatasetPtr) (name : string)
    : option string :=
  match fuel with
  | O => None
  | S fuel' =>
      d ← findByName ds (baseName name);
      if String.eqb (zfs.Origin (deref d)) "" then Some (baseName name)
      else walkOrigin fuel' ds (zfs.Origin (deref d))
  end.

Definition specResolveOrigin (ds : list DatasetPtr)
    (onlyOnMountpoint name : string) : option string :=
  d ← findByName ds name;
  if negb (String.eqb onlyOnMountpoint "")
     && negb (String.eqb (zfs.Mountpoint (deref d)) onlyOnMountpoint)
  then None
  else
    let start :=
      if zfs.IsSnapshot (deref d) then baseName name
      else zfs.Origin (deref d) in
    if String.eqb start "" then Some ""
    else walkOrigin (S (length ds)) ds start.

(** Modelled from the spec: [isChild] is not in [machines.go].  A volume
    is a child of a root when its name is a strict descendant (prefix
    plus ["/"]), snapshots being compared without the tag. *)
Definition specIsChild (name : string) (d : zfs.Dataset)
    : bool * option error :=
  (HasPrefix (zfs.Name d) (baseName name +:+ "/"), None).

(** Modelled from the spec: [getRootDatasets] is not in [machines.go].
    The root user datasets are those whose name has no parent within the
    bucket; each is grouped with its descendants. *)
Definition isDescendant (d r : DatasetPtr) : bool :=
  HasPrefix (zfs.Name (deref d)) (zfs.Name (deref r) +:+ "/").

Definition specGetRootDatasets (bucket : list DatasetPtr)
    : list (DatasetPtr * list DatasetPtr) :=
  (λ r, (r, List.filter (λ d, isDescendant d r) bucket))
    <$> List.filter (λ r, negb (existsb (isDescendant r) bucket)) bucket.

(** Modelled from the spec: [appendIfNotPresent] is not in
    [machines.go].  It appends every volume that is not already in the
    list, compared by name. *)
Definition specAppendIfNotPresent (l toAdd : list DatasetPtr) (byName : bool)
    : list DatasetPtr :=
  fold_left
    (λ acc d,
       if existsb (λ x, if byName
                        then String.eqb (zfs.Name (deref x))
                               (zfs.Name (deref d))
                        else ptrEq x d) acc
       then acc else (acc ++ [d])%list)
    toAdd l.

(** Modelled from the spec: the command line parser is not in
    [machines.go].  Tokens are separated by blanks, the first [root=]
    token wins, and a [ZFS=] or [zfs:] prefix is dropped. *)
Definition stripPrefix (p s : string) : string :=
  if HasPrefix s p then sliceFrom (String.length p) s else s.

Definition specBootParameters (cmdline : string) : string * string :=
  match List.find (λ tok, HasPrefix tok "root=") (Split cmdline " ") with
  | Some tok =>
      (stripPrefix "zfs:" (stripPrefix "ZFS=" (stripPrefix "root=" tok)),
       "")
  | None => ("", "")
  end.

(** Modelled from the spec: [findFromRoot] is not in [machines.go].  A
    direct hit in [all] is that machine; otherwise the machine whose
    history has the name. *)
Definition specFindFromRoot (all : gmap string Machine) (root : string)
    : option string :=
  match all !! root with
  | Some _ => Some root
  | None =>
      List.find
        (λ k, match all !! k with
              | Some m => bool_decide (is_Some (Machine.History m !! root))
              | None => false
              end)
        (sortedMachineKeys all)
  end.

Definition specHelpers : Helpers := {|
  Zfs := MockZfs;
  zfsDatasets := cache;
  zfsRefresh := mockRefresh;
  sortDatasets := sortByName;
  resolveOrigin := specResolveOrigin;
  isChild := specIsChild;
  getRootDatasets := specGetRootDatasets;
  appendIfNotPresent := specAppendIfNotPresent;
  bootParametersFromCmdline := specBootParameters;
  findFromRoot := specFindFromRoot
|}.

End SpecHelpers.

(** ** Concrete inventories *)

Module Examples.

Definition dataset (name mountpoint canMount : string) (isSnapshot : bool)
    (origin : string) (bootFS : bool) (bootfsDatasets : string)
    (lastUsed : Z) : zfs.Dataset :=
  {| zfs.Name := name; zfs.Mountpoint := mountpoint;
     zfs.CanMount := canMount; zfs.IsSnapshot := isSnapshot;
     zfs.Origin := origin; zfs.BootFS := bootFS;
     zfs.BootfsDatasets := bootfsDatasets; zfs.LastUsed := lastUsed |}.

(** Two schedules: shorter keys and lower addresses first, and the
    reverse. *)
Definition keyRank (k : string) : nat := String.length k.

Definition ascending : MapOrder := {|
  machinesOrder := λ _ k, keyRank k;
  historyOrder := λ _ _ k, keyRank k;
  rootsOrder := λ a, a;
  userRootsOrder := λ _ a, a;
  userdatasOrder := λ _ a, a;
  usersOrder := λ _ k, keyRank k;
  historyUsersOrder := λ _ k, keyRank k;
  userStatesOrder := λ _ _ k, keyRank k
|}.

Definition descending : MapOrder := {|
  machinesOrder := λ _ k, 100 - keyRank k;
  historyOrder := λ _ _ k, 100 - keyRank k;
  rootsOrder := λ a, 100 - a;
  userRootsOrder := λ _ a, 100 - a;
  userdatasOrder := λ _ a, 100 - a;
  usersOrder := λ _ k, 100 - keyRank k;
  historyUsersOrder := λ _ k, 100 - keyRank k;
  userStatesOrder := λ _ _ k, 100 - keyRank k
|}.

(** One machine with a clone in its history, a boot volume and the home
    volumes of two users. *)
Definition u1 := dataset "rpool/ROOT/u1" "/" "on" false "" true "" 100.
Definition u1var := dataset "rpool/ROOT/u1/var" "/var" "on" false "" false "" 0.
Definition u1snap :=
  dataset "rpool/ROOT/u1@snap" "/" "on" true "" true "" 50.
Definition u2 :=
  dataset "rpool/ROOT/u2" "/" "on" false "rpool/ROOT/u1@snap" true "" 0.
Definition boot1 := dataset "bpool/BOOT/u1" "/boot" "on" false "" false "" 0.
Definition alice :=
  dataset "rpool/USERDATA/alice_abcd" "/home/alice" "on" false "" false
    "rpool/ROOT/u1" 100.
Definition bob :=
  dataset "rpool/USERDATA/bob_efgh" "/home/bob" "off" false "" false
    "rpool/ROOT/u1" 100.
Definition srv := dataset "rpool/srv" "/srv" "on" false "" false "" 0.

Definition inventory : list zfs.Dataset :=
  [alice; srv; u1; boot1; u2; u1var; bob; u1snap].

Definition cmdline : string := "ro root=ZFS=rpool/ROOT/u1 quiet".

Definition heap : gmap nat SpecHelpers.MockZfs :=
  {[ 7%nat := {| SpecHelpers.cache := inventory;
                 SpecHelpers.scans := [None; Some inventory] |} ]}.

(** The inventory as [refresh] hands it to [triageDatasets]. *)
Definition sorted : list DatasetPtr :=
  SpecHelpers.sortByName (imap Ptr inventory).
Definition origins : string → option string :=
  SpecHelpers.specResolveOrigin sorted "/".
Definition triaged : list zfs.Dataset :=
  (mainDatasets origins sorted ++ cloneDatasets origins sorted)
    ++ otherDatasets origins sorted.

(** The value assembled from the cache of the adapter, before a refresh
    whose scan fails. *)
Definition assembled : Machines :=
  default (emptyMachines cmdline 7)
    (fst <$> refresh (helpers := SpecHelpers.specHelpers) ascending heap
               (emptyMachines cmdline 7)).

(** The home of alice, linked to the machine, and two snapshots of it
    taken in the same second. *)
Definition aliceHome : DatasetPtr := Ptr 0 alice.
Definition aliceSnap1 : DatasetPtr :=
  Ptr 1 (dataset "rpool/USERDATA/alice_abcd@s1" "/home/alice" "on" true ""
           false "rpool/ROOT/u1" 1577836800).
Definition aliceSnap2 : DatasetPtr :=
  Ptr 2 (dataset "rpool/USERDATA/alice_abcd@s2" "/home/alice" "on" true ""
           false "rpool/ROOT/u1" 1577836800).
Definition aliceUserdatas : list (DatasetPtr * originAndChildren) :=
  [ (aliceHome, {| origin := ""; children := [] |});
    (aliceSnap1,
     {| origin := "rpool/USERDATA/alice_abcd"; children := [] |});
    (aliceSnap2,
     {| origin := "rpool/USERDATA/alice_abcd"; children := [] |}) ].

(** The machine made from [u1] and the homes of alice and bob as
    [attachRemainingDatasets] receives them. *)
Definition machineU1 : Machine :=
  Machine.mk
    (State.mk "rpool/ROOT/u1" true (Some (time.Unix 100 0)) [Ptr 0 u1] [] [])
    ∅ ∅.
Definition homes : list (DatasetPtr * originAndChildren) :=
  [ (Ptr 1 alice, {| origin := ""; children := [] |});
    (Ptr 2 bob, {| origin := ""; children := [] |}) ].

(** A snapshot state and a boot volume whose name runs through the
    state's last segment without ending in its tag. *)
Definition snapState : State :=
  State.mk "rpool/ROOT/u1@s" true None
    [Ptr 0 (dataset "rpool/ROOT/u1@s" "/" "on" true "" true "" 0)] [] [].
Definition bootUnder : DatasetPtr :=
  Ptr 1 (dataset "bpool/BOOT/u1@s/grub" "/boot/grub" "on" false "" false
           "" 0).

End Examples.

(** ** Vocabulary of the properties *)

(** A segment [base@snap] carries the snapshot tag [snap]: the tag is what
    follows the last ["@"], and neither part is empty. *)
Definition hasTag (segment snap : string) : Prop :=
  ∃ base, segment = base +:+ "@" +:+ snap
          ∧ base ≠ "" ∧ snap ≠ "" ∧ ¬ isSubstringOf "@" snap.

(** The test of the specification: an element of the colon-separated list
    equals the id, or the whole list begins with the id followed by
    ["/"]. *)
Definition linked (bootfsDatasets id : string) : Prop :=
  id ∈ Split bootfsDatasets ":" ∨ isPrefixOf (id +:+ "/") bootfsDatasets.

Section Takes.
Context {helpers : Helpers}.

(** The three ways a machine takes a dataset. *)
Inductive takes (d : DatasetPtr) (origin : option string) (m : Machine)
    : Machine → Prop :=
| takes_child :
    isChildOk (Machine.ID m) (deref d) = true →
    takes d origin m
      (Machine.setState m
         (State.appendSystemDatasets (Machine.State m) [d]))
| takes_history :
    isChildOk (Machine.ID m) (deref d) = false →
    isRootOf (deref d) origin (Machine.ID m) = true →
    takes d origin m
      (Machine.setHistory m
         (<[zfs.Name (deref d) := newHistoryState d]> (Machine.History m)))
| takes_history_child (k : string) (h : State) :
    isChildOk (Machine.ID m) (deref d) = false →
    isRootOf (deref d) origin (Machine.ID m) = false →
    Machine.History m !! k = Some h →
    isChildOk (State.ID h) (deref d) = true →
    takes d origin m
      (Machine.setHistory m
         (<[k := State.appendSystemDatasets h [d]]> (Machine.History m))).

(** A machine that lets the dataset pass. *)
Definition declines (d : DatasetPtr) (origin : option string) (m : Machine)
    : Prop :=
  isChildOk (Machine.ID m) (deref d) = false
  ∧ isRootOf (deref d) origin (Machine.ID m) = false
  ∧ ∀ k h, Machine.History m !! k = Some h →
           isChildOk (State.ID h) (deref d) = false.

End Takes.

(** The dataset is a mountable root whose resolved origin is [name]. *)
Definition mountableRootOf (d : zfs.Dataset) (origin : option string)
    (name : string) : Prop :=
  zfs.Mountpoint d = "/" ∧ zfs.CanMount d ≠ "off" ∧ origin = Some name.

(** The last-used time of a state agrees with its source dataset: absent
    iff the dataset's value is 0, else the Unix time of that value. *)
Definition lastUsedAgrees (d : zfs.Dataset) (s : State) : Prop :=
  (State.LastUsed s = None ↔ zfs.LastUsed d = 0%Z)
  ∧ (zfs.LastUsed d ≠ 0%Z →
     State.LastUsed s = Some (time.Unix (zfs.LastUsed d) 0)).

(** The state was made from the dataset [d], one of [ds]: [d] is its first
    system dataset and gives its id, its zsys flag and its last-used
    time. *)
Definition madeFrom (ds : list DatasetPtr) (s : State) (d : DatasetPtr)
    : Prop :=
  d ∈ ds
  ∧ head (State.SystemDatasets s) = Some d
  ∧ State.ID s = zfs.Name (deref d)
  ∧ State.IsZsys s = zfs.BootFS (deref d)
  ∧ lastUsedAgrees (deref d) s.

(** Every machine is stored under its id, and it and its history states
    were made from datasets of [ds]. *)
Definition machinesMadeFrom (ds : list DatasetPtr)
    (all : gmap string Machine) : Prop :=
  ∀ k m, all !! k = Some m →
    Machine.ID m = k
    ∧ (∃ d, madeFrom ds (Machine.State m) d)
    ∧ ∀ hk h, Machine.History m !! hk = Some h →
        State.ID h = hk ∧ ∃ d, madeFrom ds h d.

(** The state stored for [user] under the slot [timestamp]. *)
Definition userStateAt (users : gmap string (gmap string UserState))
    (user timestamp : string) : option UserState :=
  users !! user ≫= (λ states, states !! timestamp).

(** Every stored user state has a first dataset. *)
Definition usersNonEmpty (users : gmap string (gmap string UserState))
    : Prop :=
  ∀ user timestamp userState,
    userStateAt users user timestamp = Some userState →
    UserState.Datasets userState ≠ [].

(** The test of lines 377-386: the entry [(r, dprop)] of [userdatas] is
    related to one of the machine's root user datasets. *)
Definition relatedTo (userdatas : list (DatasetPtr * originAndChildren))
    (roots : list DatasetPtr) (r : DatasetPtr) (dprop : originAndChildren)
    : Prop :=
  ∃ u, u ∈ roots
       ∧ (addr r = addr u
          ∨ (origin dprop ≠ ""
             ∧ origin dprop = origin (lookupUserdata userdatas u))
          ∨ (origin (lookupUserdata userdatas u) = ""
             ∧ origin dprop = zfs.Name (deref u))
          ∨ (origin dprop = ""
             ∧ origin (lookupUserdata userdatas u) = zfs.Name (deref r))).

(** The same relation in the words of the specification: the entry is one
    of the roots, or its origin equals the origin of a root, or one side's
    origin equals the other side's name. *)
Definition relatedAsSpecified
    (userdatas : list (DatasetPtr * originAndChildren))
    (roots : list DatasetPtr) (r : DatasetPtr) (dprop : originAndChildren)
    : Prop :=
  ∃ u, u ∈ roots
       ∧ (addr r = addr u
          ∨ origin dprop = origin (lookupUserdata userdatas u)
          ∨ origin dprop = zfs.Name (deref u)
          ∨ origin (lookupUserdata userdatas u) = zfs.Name (deref r)).

(** The root [r] is in the users map with its children. *)
Definition includedInUsers (users : gmap string (gmap string UserState))
    (r : DatasetPtr) (dprop : originAndChildren) : Prop :=
  ∃ user timestamp userState,
    userStateAt users user timestamp = Some userState
    ∧ UserState.Datasets userState = r :: children dprop.

Section HistoryVocabulary.
Context {helpers : Helpers}.
Variable order : MapOrder.

(** Before the history test of the machine [k] is reached, the dataset is
    taken as a child: of the root of [k], or of the root or a history state
    of a machine that the loop visits before [k]. *)
Definition takenAsChildBefore (all : gmap string Machine) (d : DatasetPtr)
    (k : string) : Prop :=
  isChildOk k (deref d) = true
  ∨ ∃ pre post k' m',
      rangeOrder (machinesOrder order d) (mapKeys all) = pre ++ k :: post
      ∧ k' ∈ pre
      ∧ all !! k' = Some m'
      ∧ (isChildOk (Machine.ID m') (deref d) = true
         ∨ ∃ hk h, Machine.History m' !! hk = Some h
                   ∧ isChildOk (State.ID h) (deref d) = true).

(** Among the datasets [ds], triaged in this order from no machine, there
    is one named [n] that is a mountable root with resolved origin [k] and
    that is not taken as a child when its turn comes. *)
Definition historyRootOf (origins : string → option string)
    (ds : list DatasetPtr) (k n : string) : Prop :=
  ∃ pre d post,
    ds = pre ++ d :: post
    ∧ zfs.Name (deref d) = n
    ∧ mountableRootOf (deref d) (origins n) k
    ∧ ¬ takenAsChildBefore
          (all (triageFrom order origins (triageStart ∅) pre)) d k.

(** Every dataset that precedes a main dataset is a main dataset. *)
Definition mainsFirst (origins : string → option string)
    (ds : list DatasetPtr) : Prop :=
  ∀ pre d post,
    ds = pre ++ d :: post →
    origins (zfs.Name (deref d)) = Some "" →
    ∀ d', d' ∈ pre → origins (zfs.Name (deref d')) = Some "".

End HistoryVocabulary.

(** The names of the user datasets of the machine stored under [k], in
    their order. *)
Definition userDatasetNames (machines : Machines) (k : string)
    : list string :=
  match Machines.all machines !! k with
  | Some m => (zfs.Name ∘ deref) <$> State.UserDatasets (Machine.State m)
  | None => []
  end.

(** The entry of [userdatas] is related to the machine and goes to the
    slot of the given user and timestamp. *)
Definition fills (userdatas : list (DatasetPtr * originAndChildren))
    (roots : list DatasetPtr) (user timestamp : string)
    (e : DatasetPtr * originAndChildren) : Prop :=
  relatedTo userdatas roots e.1 e.2
  ∧ userOf e.1 = user ∧ timestampOf roots e.1 = timestamp.

(** The tests of lines 243 and 250 on a dataset that no machine took. *)
Definition isBootVolume (d : zfs.Dataset) : Prop :=
  isPrefixOf "/boot" (zfs.Mountpoint d).
Definition isUserVolume (d : zfs.Dataset) : Prop :=
  isSubstringOf userdatasetsContainerName (ToLower (zfs.Name d)).

(** The state [s'] is the state [s] with datasets attached: the id, the
    zsys flag and the last-used time are those of [s], and the system and
    user datasets of [s] come first in those of [s']. *)
Definition attachedTo (s s' : State) : Prop :=
  State.ID s' = State.ID s
  ∧ State.IsZsys s' = State.IsZsys s
  ∧ State.LastUsed s' = State.LastUsed s
  ∧ State.SystemDatasets s `prefix_of` State.SystemDatasets s'
  ∧ State.UserDatasets s `prefix_of` State.UserDatasets s'.

(** ** Further concrete inputs *)

Module Scenarios.

(** The machine [rpool/ROOT/u1] as the triage of the example inventory
    leaves it, with its two history states. *)
Definition triagedU1 : Machine :=
  default Examples.machineU1
    (all (triageDatasets (helpers := SpecHelpers.specHelpers)
            Examples.ascending ∅ Examples.triaged Examples.origins)
       !! "rpool/ROOT/u1").

Definition bootPtr : DatasetPtr := Ptr 10 Examples.boot1.
Definition srvPtr : DatasetPtr := Ptr 11 Examples.srv.

(** The home of alice with a snapshot taken with the snapshot of the
    root, and the users map built from them for the machine. *)
Definition aliceSnap : DatasetPtr :=
  Ptr 21 (Examples.dataset "rpool/USERDATA/alice_abcd@snap" "/home/alice"
            "on" true "" false "rpool/ROOT/u1" 50).
Definition aliceWithSnapshot : list (DatasetPtr * originAndChildren) :=
  [ (Ptr 20 Examples.alice, {| origin := ""; children := [] |});
    (aliceSnap,
     {| origin := "rpool/USERDATA/alice_abcd"; children := [] |}) ].
Definition aliceUsers : gmap string (gmap string UserState) :=
  buildUsers Examples.ascending "rpool/ROOT/u1" aliceWithSnapshot ∅.

(** The snapshot and the clone of the root, as history states. *)
Definition snapshotState : State :=
  State.mk "rpool/ROOT/u1@snap" true None [Ptr 2 Examples.u1snap] [] [].
Definition cloneState : State :=
  State.mk "rpool/ROOT/u2" true None [Ptr 4 Examples.u2] [] [].

(** A home linked to the clone. *)
Definition carolHome : DatasetPtr :=
  Ptr 30 (Examples.dataset "rpool/USERDATA/carol_ijkl" "/home/carol" "on"
            false "" false "rpool/ROOT/u1:rpool/ROOT/u2" 70).
Definition carolUsers : gmap string (gmap string UserState) :=
  buildUsers Examples.ascending "rpool/ROOT/u1"
    [ (carolHome, {| origin := ""; children := [] |}) ] ∅.

End Scenarios.

(** * Properties *)

(** ** The string functions do what their documentation says *)

Section StringFacts.

#[local] Arguments String.append !s1 s2 : simpl nomatch.

Lemma append_nil_right (s : string) : s +:+ "" = s.
Proof. induction s as [|c s IH]; simpl; [done | by rewrite IH]. Qed.

Lemma append_associative (a b c : string) :
  (a +:+ b) +:+ c = a +:+ b +:+ c.
Proof. induction a as [|x a IH]; simpl; [done | by rewrite IH]. Qed.

Lemma HasPrefix_isPrefixOf (s p : string) :
  HasPrefix s p = true ↔ isPrefixOf p s.
Proof.
  revert s. induction p as [|c p IH]; intros s.
  - split; [intros _; by exists s | intros _; by destruct s].
  - destruct s as [|c' s]; simpl.
    + split; [done | intros [r Hr]; discriminate].
    + rewrite andb_true_iff, Ascii.eqb_eq, IH. split.
      * intros [-> [r ->]]. by exists r.
      * intros [r Hr]. simpl in Hr. injection Hr as -> ->.
        split; [done | by exists r].
Qed.

Lemma HasSuffix_unfold (s x : string) :
  HasSuffix s x =
    String.eqb s x
    || match s with
       | EmptyString => false
       | String _ s' => HasSuffix s' x
       end.
Proof. by destruct s. Qed.

Lemma Contains_unfold (s x : string) :
  Contains s x =
    HasPrefix s x
    || match s with
       | EmptyString => false
       | String _ s' => Contains s' x
       end.
Proof. by destruct s. Qed.

Lemma HasSuffix_isSuffixOf (s x : string) :
  HasSuffix s x = true ↔ isSuffixOf x s.
Proof.
  split.
  - induction s as [|c s IH]; rewrite HasSuffix_unfold.
    + rewrite orb_false_r, String.eqb_eq. intros <-. by exists "".
    + rewrite orb_true_iff, String.eqb_eq. intros [<- | Hs].
      * by exists "".
      * destruct (IH Hs) as [l ->]. by exists (String c l).
  - intros [l ->]. induction l as [|c l IH]; rewrite HasSuffix_unfold.
    + simpl. by rewrite String.eqb_refl.
    + simpl. rewrite IH. apply orb_true_r.
Qed.

Lemma Contains_isSubstringOf (s x : string) :
  Contains s x = true ↔ isSubstringOf x s.
Proof.
  split.
  - induction s as [|c s IH]; rewrite Contains_unfold.
    + rewrite orb_false_r. intros [r Hr]%HasPrefix_isPrefixOf.
      by exists "", r.
    + rewrite orb_true_iff. intros [[r Hr]%HasPrefix_isPrefixOf | Hs].
      * by exists "", r.
      * destruct (IH Hs) as (l & r & ->). by exists (String c l), r.
  - intros (l & r & ->). induction l as [|c l IH]; rewrite Contains_unfold.
    + simpl. replace (HasPrefix (x +:+ r) x) with true; [done|].
      symmetry. apply HasPrefix_isPrefixOf. by exists r.
    + simpl. rewrite IH. apply orb_true_r.
Qed.

Lemma Split_nonempty (s : string) (sep : ascii) : Split s sep ≠ [].
Proof.
  destruct s as [|c s]; simpl; [done|].
  destruct (Ascii.eqb c sep); [done|]. by destruct (Split s sep).
Qed.

(** Joining the pieces with the separator gives the string back. *)
Lemma Join_Split (s : string) (sep : ascii) :
  Join (Split s sep) (String sep "") = s.
Proof.
  induction s as [|c s IH]; simpl; [done|].
  destruct (Ascii.eqb_spec c sep) as [->|Hne].
  - pose proof (Split_nonempty s sep).
    destruct (Split s sep) as [|x xs] eqn:E; [done|].
    simpl in *. by rewrite IH.
  - pose proof (Split_nonempty s sep).
    destruct (Split s sep) as [|x xs] eqn:E; [done|].
    destruct xs as [|y ys]; simpl in *; by rewrite <- IH.
Qed.

(** No piece holds the separator. *)
Lemma Split_no_separator (s : string) (sep : ascii) :
  Forall (λ x, LastIndex x sep = (-1)%Z) (Split s sep).
Proof.
  induction s as [|c s IH]; simpl.
  - by repeat constructor.
  - destruct (Ascii.eqb_spec c sep) as [->|Hne].
    + by constructor.
    + pose proof (Split_nonempty s sep).
      destruct (Split s sep) as [|x xs]; [done|].
      inversion IH as [|? ? Hx Hxs]; subst. constructor; [|done].
      simpl. rewrite Hx. simpl.
      by destruct (Ascii.eqb_spec c sep).
Qed.

Lemma LastIndex_lower_bound (s : string) (c : ascii) :
  (-1 ≤ LastIndex s c)%Z.
Proof.
  induction s as [|a s IH]; simpl; [lia|].
  destruct (Z.leb_spec 0 (LastIndex s c)); [lia|].
  destruct (Ascii.eqb a c); lia.
Qed.

(** At a non-negative [LastIndex] the string splits around the byte, and
    the byte does not occur further to the right. *)
Lemma LastIndex_split (s : string) (c : ascii) (j : Z) :
  LastIndex s c = j → (0 ≤ j)%Z →
  ∃ l r, s = l +:+ String c r
         ∧ String.length l = Z.to_nat j
         ∧ LastIndex r c = (-1)%Z
         ∧ sliceFrom (Z.to_nat (j + 1)) s = r.
Proof.
  revert j. induction s as [|a s IH]; intros j; simpl.
  - intros <- ?. lia.
  - pose proof (LastIndex_lower_bound s c) as Hlb.
    destruct (Z.leb_spec 0 (LastIndex s c)) as [Hge|Hlt].
    + intros <- _.
      destruct (IH _ eq_refl Hge) as (l & r & -> & Hlen & Hr & Hsl).
      exists (String a l), r. simpl. rewrite Hlen.
      repeat split; [lia | done |].
      replace (Z.to_nat (LastIndex (l +:+ String c r) c + 1 + 1))
        with (S (Z.to_nat (LastIndex (l +:+ String c r) c + 1))) by lia.
      done.
    + destruct (Ascii.eqb_spec a c) as [->|Hne]; intros <- ?; [|lia].
      exists "", s. simpl. repeat split. lia.
Qed.

Lemma LastIndex_append_found (l r : string) (c : ascii) :
  LastIndex r c = (-1)%Z →
  LastIndex (l +:+ String c r) c = Z.of_nat (String.length l).
Proof.
  intros Hr. induction l as [|a l IH]; simpl.
  - rewrite Hr. simpl. by rewrite Ascii.eqb_refl.
  - rewrite IH. destruct (Z.leb_spec 0 (Z.of_nat (String.length l))); lia.
Qed.

(** The functions on the names and tags of the example inventory. *)
Example Split_bootfs :
  Split "rpool/ROOT/u1:rpool/ROOT/u2" ":" = ["rpool/ROOT/u1"; "rpool/ROOT/u2"].
Proof. reflexivity. Qed.

Example Split_empty : Split "" "/" = [""].
Proof. reflexivity. Qed.

Example Base_of_snapshot :
  Base "rpool/USERDATA/alice_abcd@s1" = "alice_abcd@s1".
Proof. reflexivity. Qed.

Example Itoa_decimal :
  (Itoa 0, Itoa 1577836800, Itoa (-15)) = ("0", "1577836800", "-15").
Proof. reflexivity. Qed.

Example LastIndex_of_tag :
  (LastIndex "u1@snap" "@", LastIndex "u1" "@", LastIndex "@snap" "@")
  = (2, -1, 0)%Z.
Proof. reflexivity. Qed.

Example userOf_alice :
  (userOf Examples.aliceHome, userOf Examples.aliceSnap1) = ("alice", "alice").
Proof. reflexivity. Qed.

(** The second test of [linkedTo] reads the whole list: it sees the id
    followed by ["/"] at the head of the list only. *)
Example linkedTo_raw_prefix :
  (linkedTo "rpool/ROOT/u1/var:rpool/ROOT/u2" "rpool/ROOT/u1",
   linkedTo "rpool/ROOT/u2:rpool/ROOT/u1/var" "rpool/ROOT/u1")
  = (true, false).
Proof. reflexivity. Qed.

End StringFacts.

Section SegmentFacts.

#[local] Arguments String.append !s1 s2 : simpl nomatch.

Lemma Join_last (l : list string) (sep d : string) :
  l ≠ [] →
  Join l sep = List.last l d
  ∨ ∃ pre, Join l sep = pre +:+ sep +:+ List.last l d.
Proof.
  induction l as [|x xs IH]; [done|]. intros _.
  destruct xs as [|y ys]; [by left|]. right.
  destruct IH as [IH | [pre IH]]; [done | |].
  - exists x. change (Join (x :: y :: ys) sep)
      with (x +:+ sep +:+ Join (y :: ys) sep). by rewrite IH.
  - exists (x +:+ sep +:+ pre).
    change (Join (x :: y :: ys) sep)
      with (x +:+ sep +:+ Join (y :: ys) sep).
    rewrite IH. change (List.last (x :: y :: ys) d)
      with (List.last (y :: ys) d).
    by rewrite !append_associative.
Qed.

(** The last segment of a name is the name itself or what follows its
    last ["/"]. *)
Lemma lastSegment_suffix (id : string) :
  id = lastSegment id ∨ ∃ pre, id = pre +:+ "/" +:+ lastSegment id.
Proof.
  unfold lastSegment.
  pose proof (Join_last (Split id "/") "/" "" (Split_nonempty id "/")) as Hj.
  by rewrite Join_Split in Hj.
Qed.

Lemma lastSegment_no_slash (id : string) :
  LastIndex (lastSegment id) "/" = (-1)%Z.
Proof.
  unfold lastSegment. pose proof (Split_no_separator id "/") as Hall.
  pose proof (Split_nonempty id "/") as Hne.
  induction (Split id "/") as [|x xs IH]; [done|].
  inversion Hall; subst. destruct xs as [|y ys]; [done|].
  apply IH; done.
Qed.

Lemma LastIndex_occurs (l r : string) (c : ascii) :
  (0 ≤ LastIndex (l +:+ String c r) c)%Z.
Proof.
  induction l as [|a l IH]; simpl.
  - pose proof (LastIndex_lower_bound r c).
    destruct (Z.leb_spec 0 (LastIndex r c)); [lia|].
    rewrite Ascii.eqb_refl. lia.
  - destruct (Z.leb_spec 0 (LastIndex (l +:+ String c r) c)); lia.
Qed.

Lemma LastIndex_absent (s : string) (c : ascii) :
  LastIndex s c = (-1)%Z ↔ ¬ isSubstringOf (String c "") s.
Proof.
  split.
  - intros Hs (l & r & ->). pose proof (LastIndex_occurs l r c) as Ho.
    simpl in Hs. lia.
  - intros Hno. pose proof (LastIndex_lower_bound s c).
    destruct (Z.leb_spec 0 (LastIndex s c)) as [Hge|]; [|lia].
    destruct (LastIndex_split s c _ eq_refl Hge) as (l & r & -> & _).
    destruct Hno. by exists l, r.
Qed.

Lemma sliceFrom_after (l r : string) (c : ascii) :
  sliceFrom (S (String.length l)) (l +:+ String c r) = r.
Proof. induction l as [|a l IH]; simpl; [by destruct r | done]. Qed.

End SegmentFacts.


Section SnapshotFacts.

#[local] Arguments String.append !s1 s2 : simpl nomatch.

Lemma snapshotOf_hasTag (segment snap : string) :
  hasTag segment snap → snapshotOf segment = snap.
Proof.
  intros (base & -> & Hb & Hs & Hno). unfold snapshotOf.
  apply LastIndex_absent in Hno.
  change (base +:+ "@" +:+ snap) with (base +:+ String "@" snap).
  rewrite (LastIndex_append_found base snap "@" Hno).
  destruct base as [|a base]; [done|].
  destruct (Z.ltb_spec 0 (Z.of_nat (String.length (String a base))))
    as [_|Hle]; [|simpl in Hle; lia].
  replace (Z.to_nat (Z.of_nat (String.length (String a base)) + 1))
    with (S (String.length (String a base))) by lia.
  apply sliceFrom_after.
Qed.

Lemma snapshotOf_nonempty (segment : string) :
  snapshotOf segment ≠ "" → hasTag segment (snapshotOf segment).
Proof.
  unfold snapshotOf.
  destruct (Z.ltb_spec 0 (LastIndex segment "@")) as [Hj|]; [|done].
  intros Hne.
  destruct (LastIndex_split segment "@" _ eq_refl ltac:(lia))
    as (l & r & Hseg & Hlen & Hr & Hsl).
  rewrite Hsl in *. exists l. repeat split; [done | | done |].
  - intros ->. simpl in Hlen. lia.
  - by apply LastIndex_absent.
Qed.

Lemma snapshotOf_untagged (segment : string) :
  (∀ snap, ¬ hasTag segment snap) → snapshotOf segment = "".
Proof.
  intros Hno. destruct (decide (snapshotOf segment = "")) as [|Hne];
    [done|]. destruct (Hno _ (snapshotOf_nonempty _ Hne)).
Qed.

Lemma historyBoots_filter (snapshot stateDatasetID : string)
    (boots : list DatasetPtr) :
  historyBoots snapshot stateDatasetID boots =
    List.filter
      (λ d, (negb (String.eqb snapshot "")
             && HasSuffix (zfs.Name (deref d)) ("@" +:+ snapshot))
            || HasSuffix (zfs.Name (deref d)) stateDatasetID
            || Contains (zfs.Name (deref d))
                 ("/" +:+ stateDatasetID +:+ "/"))
      boots.
Proof.
  induction boots as [|d boots IH]; [done|]. cbn [historyBoots List.filter].
  rewrite IH.
  destruct (negb (String.eqb snapshot "")
            && HasSuffix (zfs.Name (deref d)) ("@" +:+ snapshot));
    simpl; [done|].
  destruct (HasSuffix (zfs.Name (deref d)) stateDatasetID); simpl; [done|].
  by destruct (Contains (zfs.Name (deref d))
                 ("/" +:+ stateDatasetID +:+ "/")).
Qed.

(** A name that ends with [base@snap] ends with ["@snap"]. *)
Lemma suffix_of_tagged (segment snap name : string) :
  hasTag segment snap → isSuffixOf segment name →
  isSuffixOf ("@" +:+ snap) name.
Proof.
  intros (base & -> & _) [l ->]. exists (l +:+ base).
  by rewrite append_associative.
Qed.

End SnapshotFacts.

(** ** Iteration orders *)

Section OrderFacts.

Lemma rangeOrder_Permutation {K : Type} (rank : K → nat) (l : list K) :
  rangeOrder rank l ≡ₚ l.
Proof. apply merge_sort_Permutation. Qed.

Lemma elem_of_rangeOrder {K : Type} (rank : K → nat) (l : list K) (x : K) :
  x ∈ rangeOrder rank l ↔ x ∈ l.
Proof. by rewrite rangeOrder_Permutation. Qed.

Lemma elem_of_mapKeys {V : Type} (m : gmap string V) (k : string) :
  k ∈ mapKeys m ↔ is_Some (m !! k).
Proof.
  unfold mapKeys. rewrite list_elem_of_fmap. split.
  - intros [[k' v] [-> Hkv]]. apply elem_of_map_to_list in Hkv. by exists v.
  - intros [v Hv]. exists (k, v). split; [done|].
    by apply elem_of_map_to_list.
Qed.

Lemma NoDup_mapKeys {V : Type} (m : gmap string V) : NoDup (mapKeys m).
Proof. apply NoDup_fst_map_to_list. Qed.

Lemma elem_of_sortedKeys {V : Type} (m : gmap string V) (k : string) :
  k ∈ sortedKeys m ↔ is_Some (m !! k).
Proof.
  unfold sortedKeys. by rewrite merge_sort_Permutation, elem_of_mapKeys.
Qed.

(** The sorted keys do not depend on anything but the set of keys. *)
Lemma sortedKeys_Sorted {V : Type} (m : gmap string V) :
  Sorted String.le (sortedKeys m).
Proof. apply (Sorted_merge_sort String.le). Qed.

(** Ranks lose nothing: every way of visiting the keys once each is the
    order of some rank. *)
Lemma rangeOrder_any_order {K : Type} `{EqDecision K} (keys visit : list K) :
  NoDup visit → visit ≡ₚ keys → ∃ rank, rangeOrder rank keys = visit.
Proof.
  intros Hnd Hperm.
  set (rank := λ x, match list_find (λ y, y = x) visit with
                    | Some (i, _) => i
                    | None => 0%nat
                    end).
  assert (∀ i x, visit !! i = Some x → rank x = i) as Hrank.
  { intros i x Hi. unfold rank.
    destruct (list_find_elem_of (λ y, y = x) visit x) as [[j y] Hj];
      [by eapply list_elem_of_lookup_2 | done |].
    rewrite Hj. apply list_find_Some in Hj as (Hj & -> & _).
    by eapply NoDup_lookup. }
  assert (∀ l1 l2, visit = l1 ++ l2 → StronglySorted (byRank rank) l2)
    as Hsorted.
  { intros l1 l2. revert l1. induction l2 as [|x l2 IH]; intros l1 Hv;
      constructor.
    - apply (IH (l1 ++ [x])). by rewrite <- app_assoc.
    - apply Forall_forall. intros y [j Hj]%list_elem_of_lookup_1.
      unfold byRank.
      rewrite (Hrank (length l1) x), (Hrank (length l1 + S j)%nat y).
      + lia.
      + rewrite Hv, lookup_app_r by lia.
        by replace (length l1 + S j - length l1)%nat with (S j) by lia.
      + rewrite Hv, lookup_app_r by lia.
        by replace (length l1 - length l1)%nat with 0%nat by lia. }
  exists rank. unfold rangeOrder.
  assert (Transitive (byRank rank))
    by (intros a b c; unfold byRank; lia).
  assert (Total (byRank rank))
    by (intros a b; unfold byRank; lia).
  apply (Sorted_unique_strong (byRank rank)).
  - intros x1 x2 Hx1 [i Hi]%list_elem_of_lookup_1 H12 H21.
    rewrite merge_sort_Permutation, <- Hperm in Hx1.
    apply list_elem_of_lookup_1 in Hx1 as [j Hj].
    unfold byRank in *. rewrite (Hrank _ _ Hi), (Hrank _ _ Hj) in *.
    assert (i = j) as -> by lia. congruence.
  - by apply Sorted_merge_sort.
  - apply StronglySorted_Sorted, (Hsorted []). done.
  - by rewrite merge_sort_Permutation.
Qed.

End OrderFacts.

(** ** Boot volumes of a history state (C4) *)



(** ** Which user datasets are linked to a machine (C5) *)


Section LinkFacts.

Lemma fold_left_flag {A : Type} (test : A → bool) (l : list A) (b : bool) :
  fold_left (λ valid x, if test x then true else valid) l b
  = b || existsb test l.
Proof.
  revert b. induction l as [|x l IH]; intros b; simpl.
  - by rewrite orb_false_r.
  - rewrite IH. destruct (test x); simpl; [by rewrite orb_true_r | done].
Qed.

Lemma linkedTo_linkedToAny (bootfsDatasets id : string) :
  linkedTo bootfsDatasets id = linkedToAny bootfsDatasets id.
Proof. unfold linkedTo, linkedToAny. by rewrite fold_left_flag. Qed.

Lemma linkedToAny_linked (bootfsDatasets id : string) :
  linkedToAny bootfsDatasets id = true ↔ linked bootfsDatasets id.
Proof.
  unfold linkedToAny, linked. rewrite existsb_exists. split.
  - intros (e & He & Ht). apply orb_true_iff in Ht as [Ht|Ht].
    + apply String.eqb_eq in Ht as <-. left. by apply list_elem_of_In.
    + right. by apply HasPrefix_isPrefixOf.
  - intros [Hin|Hp].
    + exists id. split; [by apply list_elem_of_In|].
      by rewrite String.eqb_refl.
    + pose proof (Split_nonempty bootfsDatasets ":") as Hne.
      destruct (Split bootfsDatasets ":") as [|e es]; [done|].
      exists e. split; [by left|]. apply orb_true_iff. right.
      by apply HasPrefix_isPrefixOf.
Qed.

Lemma linkedTo_linked (bootfsDatasets id : string) :
  linkedTo bootfsDatasets id = true ↔ linked bootfsDatasets id.
Proof. rewrite linkedTo_linkedToAny. apply linkedToAny_linked. Qed.

Lemma elem_of_promoted (id : string) (userState : UserState)
    (d : DatasetPtr) :
  d ∈ promoted id userState ↔
  d ∈ UserState.Datasets userState
  ∧ linked (zfs.BootfsDatasets (deref d)) id.
Proof.
  unfold promoted.
  rewrite list_elem_of_In, filter_In, <- list_elem_of_In.
  by rewrite linkedToAny_linked.
Qed.

End LinkFacts.

(** C5: a root user dataset is among the machine's [userRootDatasets] iff
    it is a key of [userdatas], is not a snapshot, and either an element of
    its [BootfsDatasets] split on [":"] is the machine's id or the unsplit
    string begins with the id followed by ["/"]; the same test selects,
    among the datasets of the ["current"] slot of each user, those that are
    appended to the machine's [UserDatasets]. *)
Theorem user_datasets_linked_to_machine (order : MapOrder) (id : string)
    (userdatas : list (DatasetPtr * originAndChildren)) :
  (∀ r, r ∈ userRootDatasetsOf order id userdatas ↔
        r ∈ userdatas.*1
        ∧ zfs.IsSnapshot (deref r) = false
        ∧ linked (zfs.BootfsDatasets (deref r)) id)
  ∧ (∀ users d,
       d ∈ currentUserDatasets order id users ↔
       ∃ user states userState,
         users !! user = Some states
         ∧ states !! "current" = Some userState
         ∧ d ∈ UserState.Datasets userState
         ∧ linked (zfs.BootfsDatasets (deref d)) id)
  ∧ (∀ m boots persistents m',
       Machine.ID m = id →
       attachRemainingDatasets order m boots persistents userdatas = Some m' →
       State.UserDatasets (Machine.State m')
       = State.UserDatasets (Machine.State m)
           ++ currentUserDatasets order id
                (buildUsers order id userdatas (Machine.Users m))).
Proof.
  split; [|split].
  - intros r. unfold userRootDatasetsOf.
    rewrite list_elem_of_In, filter_In, <- list_elem_of_In.
    rewrite andb_true_iff, negb_true_iff, linkedTo_linked.
    by rewrite (rangeOrder_Permutation _ userdatas).
  - intros users d. unfold currentUserDatasets.
    rewrite list_elem_of_In, in_flat_map. split.
    + intros (user & Huser & Hd).
      apply list_elem_of_In, elem_of_rangeOrder, elem_of_mapKeys in Huser
        as [states Hstates].
      rewrite Hstates in Hd. simpl in Hd.
      destruct (states !! "current") as [userState|] eqn:Hcur; [|done].
      apply list_elem_of_In, elem_of_promoted in Hd as [? ?].
      by exists user, states, userState.
    + intros (user & states & userState & Hstates & Hcur & Hd & Hl).
      exists user. split.
      * apply list_elem_of_In, elem_of_rangeOrder, elem_of_mapKeys. eauto.
      * rewrite Hstates. simpl. rewrite Hcur.
        by apply list_elem_of_In, elem_of_promoted.
  - intros m boots persistents m' <-. unfold attachRemainingDatasets.
    destruct (attachHistory _ _ _ _ _ _) as [history|]; [|done].
    by intros [= <-].
Qed.

(** ** What one call of [attachSystemAndHistory] does *)

Section AttachFacts.
Context {helpers : Helpers}.
Variable order : MapOrder.


Lemma attachHistoryChild_Some (d : DatasetPtr) (history : gmap string State)
    (keys : list string) (history' : gmap string State) :
  attachHistoryChild d history keys = Some history' →
  ∃ k h, history !! k = Some h
         ∧ isChildOk (State.ID h) (deref d) = true
         ∧ history' = <[k := State.appendSystemDatasets h [d]]> history.
Proof.
  induction keys as [|k keys IH]; simpl; [done|].
  destruct (history !! k) as [h|] eqn:Hk; [|done].
  destruct (isChildOk (State.ID h) (deref d)) eqn:Hc; [|done].
  intros [= <-]. eauto.
Qed.

Lemma attachHistoryChild_None (d : DatasetPtr) (history : gmap string State)
    (keys : list string) :
  attachHistoryChild d history keys = None →
  ∀ k h, k ∈ keys → history !! k = Some h →
         isChildOk (State.ID h) (deref d) = false.
Proof.
  induction keys as [|k keys IH]; simpl; intros Hnone k' h Hin Hk'.
  - by apply elem_of_nil in Hin.
  - apply elem_of_cons in Hin as [->|Hin].
    + rewrite Hk' in Hnone.
      by destruct (isChildOk (State.ID h) (deref d)).
    + destruct (history !! k) as [h0|]; [|by eapply IH].
      destruct (isChildOk (State.ID h0) (deref d)); [done|]. by eapply IH.
Qed.

(** The loop over the machines either leaves the map as it is, every
    visited machine declining, or stops at the first machine that takes
    the dataset. *)
Lemma attachToMachines_spec (d : DatasetPtr) (origin : option string)
    (all : gmap string Machine) (keys : list string) :
  (attachToMachines order d origin all keys = (all, false)
   ∧ ∀ k m, k ∈ keys → all !! k = Some m → declines d origin m)
  ∨ ∃ pre k post m m',
      keys = pre ++ k :: post
      ∧ all !! k = Some m
      ∧ takes d origin m m'
      ∧ attachToMachines order d origin all keys = (<[k := m']> all, true)
      ∧ ∀ k0 m0, k0 ∈ pre → all !! k0 = Some m0 → declines d origin m0.
Proof.
  induction keys as [|k keys IH]; simpl.
  - left. split; [done|]. intros ? ? Hin. by apply elem_of_nil in Hin.
  - destruct (all !! k) as [m|] eqn:Hk.
    + destruct (isChildOk (Machine.ID m) (deref d)) eqn:Hc.
      { right. exists [], k, keys, m. eexists.
        split_and!; [done | done | by constructor | done |].
        intros ? ? Hin. by apply elem_of_nil in Hin. }
      destruct (isRootOf (deref d) origin (Machine.ID m)) eqn:Hr.
      { right. exists [], k, keys, m. eexists.
        split_and!; [done | done | by constructor | done |].
        intros ? ? Hin. by apply elem_of_nil in Hin. }
      destruct (attachHistoryChild d (Machine.History m) _) as [h'|] eqn:Hh.
      { apply attachHistoryChild_Some in Hh as (hk & h & Hhk & Hhc & ->).
        right. exists [], k, keys, m. eexists.
        split_and!; [done | done | by econstructor | done |].
        intros ? ? Hin. by apply elem_of_nil in Hin. }
      assert (declines d origin m) as Hdecl.
      { split_and!; [done..|]. intros hk h Hhk.
        eapply attachHistoryChild_None; [done | | done].
        apply elem_of_rangeOrder, elem_of_mapKeys. eauto. }
      destruct IH as [[Heq Hall] | (pre & k1 & post & m1 & m1' & -> & ? & ? & ? & Hpre)].
      * left. split; [done|]. intros k0 m0 Hin Hk0.
        apply elem_of_cons in Hin as [->|Hin]; [|by eapply Hall].
        by simplify_eq.
      * right. exists (k :: pre), k1, post, m1, m1'.
        split_and!; [done..|]. intros k0 m0 Hin Hk0.
        apply elem_of_cons in Hin as [->|Hin]; [|by eapply Hpre].
        by simplify_eq.
    + destruct IH as [[Heq Hall] | (pre & k1 & post & m1 & m1' & -> & ? & ? & ? & Hpre)].
      * left. split; [done|]. intros k0 m0 Hin Hk0.
        apply elem_of_cons in Hin as [->|Hin]; [|by eapply Hall].
        by simplify_eq.
      * right. exists (k :: pre), k1, post, m1, m1'.
        split_and!; [done..|]. intros k0 m0 Hin Hk0.
        apply elem_of_cons in Hin as [->|Hin]; [|by eapply Hpre].
        by simplify_eq.
Qed.

Lemma attachSystemAndHistory_spec (d : DatasetPtr) (origin : option string)
    (all : gmap string Machine) :
  let keys := rangeOrder (machinesOrder order d) (mapKeys all) in
  (attachSystemAndHistory order all d origin = (all, false)
   ∧ ∀ k m, all !! k = Some m → declines d origin m)
  ∨ ∃ pre k post m m',
      keys = pre ++ k :: post
      ∧ all !! k = Some m
      ∧ takes d origin m m'
      ∧ attachSystemAndHistory order all d origin = (<[k := m']> all, true)
      ∧ ∀ k0 m0, k0 ∈ pre → all !! k0 = Some m0 → declines d origin m0.
Proof.
  intros keys. unfold attachSystemAndHistory. fold keys.
  destruct (attachToMachines_spec d origin all keys)
    as [[Heq Hall] | Htaken]; [left | by right].
  split; [done|]. intros k m Hk. eapply Hall; [|done].
  apply elem_of_rangeOrder, elem_of_mapKeys. eauto.
Qed.

(** No machine is added or removed. *)
Lemma attachSystemAndHistory_dom (d : DatasetPtr) (origin : option string)
    (all : gmap string Machine) :
  dom (attachSystemAndHistory order all d origin).1 = dom all.
Proof.
  destruct (attachSystemAndHistory_spec d origin all)
    as [[-> _] | (pre & k & post & m & m' & _ & Hk & _ & -> & _)]; [done|].
  simpl. rewrite dom_insert_L. apply elem_of_dom_2 in Hk. set_solver.
Qed.

End AttachFacts.

(** ** Machines and history states made during triage (C2, C9) *)

Section TriageFacts.
Context {helpers : Helpers}.
Variable order : MapOrder.

Lemma isRootOf_mountableRootOf (d : zfs.Dataset) (origin : option string)
    (name : string) :
  isRootOf d origin name = true ↔ mountableRootOf d origin name.
Proof.
  unfold isRootOf, mountableRootOf.
  rewrite !andb_true_iff, negb_true_iff, String.eqb_eq, String.eqb_neq.
  destruct origin as [o|].
  - rewrite String.eqb_eq. naive_solver.
  - naive_solver.
Qed.

Lemma lastUsedOf_agrees (d : zfs.Dataset) (s : State) :
  State.LastUsed s = lastUsedOf d → lastUsedAgrees d s.
Proof.
  unfold lastUsedOf, lastUsedAgrees, int64. intros ->.
  destruct (Z.eqb_spec (zfs.LastUsed d) 0); naive_solver.
Qed.

Lemma newHistoryState_eq (d : DatasetPtr) :
  newHistoryState d =
    State.mk (zfs.Name (deref d)) (zfs.BootFS (deref d))
      (lastUsedOf (deref d)) [d] [] [].
Proof.
  unfold newHistoryState, lastUsedOf, stateOf, State.setLastUsed. simpl.
  by destruct (Z.eqb (zfs.LastUsed (deref d)) 0).
Qed.

Lemma newMachineFromDataset_Some (d : DatasetPtr) (origin : option string)
    (m : Machine) :
  newMachineFromDataset d origin = Some m ↔
  mountableRootOf (deref d) origin ""
  ∧ m = Machine.mk
          (State.mk (zfs.Name (deref d)) (zfs.BootFS (deref d))
             (lastUsedOf (deref d)) [d] [] []) ∅ ∅.
Proof.
  unfold newMachineFromDataset. rewrite <- isRootOf_mountableRootOf.
  destruct (isRootOf (deref d) origin ""); [|naive_solver].
  unfold lastUsedOf, stateOf, Machine.setState, State.setLastUsed. simpl.
  destruct (Z.eqb (zfs.LastUsed (deref d)) 0); naive_solver.
Qed.

Lemma newMachineFromDataset_None (d : DatasetPtr) (origin : option string) :
  newMachineFromDataset d origin = None ↔
  ¬ mountableRootOf (deref d) origin "".
Proof.
  rewrite <- isRootOf_mountableRootOf. unfold newMachineFromDataset.
  by destruct (isRootOf (deref d) origin "").
Qed.

(** The machines after one iteration of the triage loop. *)
Lemma triageDataset_all (origins : string → option string) (t : Triage)
    (d : DatasetPtr) :
  all (triageDataset order origins t d) =
    match newMachineFromDataset d (origins (zfs.Name (deref d))) with
    | Some m => <[zfs.Name (deref d) := m]> (all t)
    | None =>
        (attachSystemAndHistory order (all t) d
           (origins (zfs.Name (deref d)))).1
    end.
Proof.
  unfold triageDataset.
  destruct (newMachineFromDataset _ _) as [m|]; [done|].
  destruct (attachSystemAndHistory_spec order d
              (origins (zfs.Name (deref d))) (all t))
    as [[-> _] | (pre & k & post & m & m' & _ & _ & _ & -> & _)]; [|done].
  simpl. by repeat case_match.
Qed.

Lemma triageFrom_snoc (origins : string → option string) (t : Triage)
    (ds : list DatasetPtr) (d : DatasetPtr) :
  triageFrom order origins t (ds ++ [d])
  = triageDataset order origins (triageFrom order origins t ds) d.
Proof. unfold triageFrom. by rewrite fold_left_app. Qed.

Lemma madeFrom_mono (ds ds' : list DatasetPtr) (s : State) (d : DatasetPtr) :
  ds ⊆ ds' → madeFrom ds s d → madeFrom ds' s d.
Proof. intros Hsub (? & ?). split; [by apply Hsub | done]. Qed.

Lemma madeFrom_append (ds : list DatasetPtr) (s : State) (d x : DatasetPtr) :
  madeFrom ds s d → madeFrom ds (State.appendSystemDatasets s [x]) d.
Proof.
  intros (? & Hhd & ? & ? & ?). split_and!; [done | | done..].
  simpl. by destruct (State.SystemDatasets s).
Qed.

Lemma madeFrom_new (ds : list DatasetPtr) (d : DatasetPtr) :
  d ∈ ds →
  madeFrom ds
    (State.mk (zfs.Name (deref d)) (zfs.BootFS (deref d))
       (lastUsedOf (deref d)) [d] [] []) d.
Proof. intros ?. split_and!; [done..|]. by apply lastUsedOf_agrees. Qed.

Lemma takes_machinesMadeFrom (ds : list DatasetPtr) (d : DatasetPtr)
    (origin : option string) (all : gmap string Machine) (k : string)
    (m m' : Machine) :
  d ∈ ds → machinesMadeFrom ds all → all !! k = Some m →
  takes d origin m m' → machinesMadeFrom ds (<[k := m']> all).
Proof.
  intros Hd Hinv Hk Htakes k0 m0.
  destruct (decide (k = k0)) as [<-|Hne];
    [rewrite lookup_insert_eq | rewrite lookup_insert_ne by done; apply Hinv].
  intros [= <-]. destruct (Hinv k m Hk) as (Hid & [d0 Hm] & Hhist).
  destruct Htakes as [Hc | Hc Hr | hk h Hc Hr Hhk Hhc]; simpl.
  - split_and!; [done | | done]. exists d0. by apply madeFrom_append.
  - split_and!; [done | by exists d0 |]. intros hk h.
    destruct (decide (zfs.Name (deref d) = hk)) as [<-|Hne];
      [rewrite lookup_insert_eq | rewrite lookup_insert_ne by done; apply Hhist].
    intros [= <-]. rewrite newHistoryState_eq. split; [done|].
    exists d. by apply madeFrom_new.
  - split_and!; [done | by exists d0 |]. intros hk0 h0.
    destruct (decide (hk = hk0)) as [<-|Hne];
      [rewrite lookup_insert_eq | rewrite lookup_insert_ne by done; apply Hhist].
    intros [= <-]. destruct (Hhist hk h Hhk) as [? [d1 ?]].
    split; [done|]. exists d1. by apply madeFrom_append.
Qed.

Lemma machinesMadeFrom_mono (ds ds' : list DatasetPtr)
    (all : gmap string Machine) :
  ds ⊆ ds' → machinesMadeFrom ds all → machinesMadeFrom ds' all.
Proof.
  intros Hsub Hinv k m Hk. destruct (Hinv k m Hk) as (? & [d ?] & Hh).
  split_and!; [done | exists d; by eapply madeFrom_mono |].
  intros hk h Hhk. destruct (Hh hk h Hhk) as [? [d1 ?]].
  split; [done|]. exists d1. by eapply madeFrom_mono.
Qed.

Lemma triageDataset_machinesMadeFrom (origins : string → option string)
    (ds : list DatasetPtr) (t : Triage) (d : DatasetPtr) :
  machinesMadeFrom ds (all t) →
  machinesMadeFrom (ds ++ [d]) (all (triageDataset order origins t d)).
Proof.
  intros Hinv. rewrite triageDataset_all.
  assert (d ∈ ds ++ [d]) as Hd by set_solver.
  assert (machinesMadeFrom (ds ++ [d]) (all t)) as Hinv'
    by (eapply machinesMadeFrom_mono; [|done]; set_solver).
  destruct (newMachineFromDataset _ _) as [m|] eqn:Hnew.
  - apply newMachineFromDataset_Some in Hnew as [_ ->].
    intros k m. destruct (decide (zfs.Name (deref d) = k)) as [<-|Hne];
      [rewrite lookup_insert_eq | rewrite lookup_insert_ne by done; apply Hinv'].
    intros [= <-]. split_and!; [done | |].
    + exists d. by apply madeFrom_new.
    + intros hk h. simpl. by rewrite lookup_empty.
  - destruct (attachSystemAndHistory_spec order d
                (origins (zfs.Name (deref d))) (all t))
      as [[-> _] | (pre & k & post & m & m' & _ & Hk & Ht & -> & _)];
      [done|].
    simpl. by eapply takes_machinesMadeFrom.
Qed.

Lemma triageFrom_machinesMadeFrom (origins : string → option string)
    (t : Triage) (ds0 ds : list DatasetPtr) :
  machinesMadeFrom ds0 (all t) →
  machinesMadeFrom (ds0 ++ ds) (all (triageFrom order origins t ds)).
Proof.
  induction ds as [|d ds IH] using rev_ind; intros Hinv.
  - by rewrite app_nil_r.
  - rewrite triageFrom_snoc, app_assoc.
    by apply triageDataset_machinesMadeFrom, IH.
Qed.

End TriageFacts.


(** C9: after triage, every machine and every history state was made from
    a dataset of the input, its first system dataset, of the same name as
    the key it is stored under; its last-used time is absent iff this
    dataset's [LastUsed] is 0, and is otherwise the Unix time of that
    value. *)
Theorem last_used_absent_iff_zero {helpers : Helpers} (order : MapOrder)
    (allDatasets : list zfs.Dataset) (origins : string → option string)
    (k : string) (m : Machine) :
  all (triageDatasets order ∅ allDatasets origins) !! k = Some m →
  (∃ d, d ∈ addressed allDatasets
        ∧ zfs.Name (deref d) = k
        ∧ head (State.SystemDatasets (Machine.State m)) = Some d
        ∧ lastUsedAgrees (deref d) (Machine.State m))
  ∧ ∀ hk h, Machine.History m !! hk = Some h →
      ∃ d, d ∈ addressed allDatasets
           ∧ zfs.Name (deref d) = hk
           ∧ head (State.SystemDatasets h) = Some d
           ∧ lastUsedAgrees (deref d) h.
Proof.
  intros Hk.
  assert (machinesMadeFrom ([] ++ addressed allDatasets)
            (all (triageDatasets order ∅ allDatasets origins))) as Hinv.
  { apply triageFrom_machinesMadeFrom. intros ? ?. simpl.
    by rewrite lookup_empty. }
  destruct (Hinv k m Hk) as (Hid & (d & ? & ? & Hname & _ & ?) & Hhist).
  split.
  - exists d. split_and!; [done | | done..].
    by rewrite <- Hid, <- Hname.
  - intros hk h Hhk.
    destruct (Hhist hk h Hhk) as (Hhid & d' & ? & ? & Hname' & _ & ?).
    exists d'. split_and!; [done | | done..]. by rewrite <- Hhid, <- Hname'.
Qed.

(** The machine [rpool/ROOT/u1] of the example inventory, made from the
    dataset of that name, last used at 100. *)
Lemma last_used_absent_iff_zero_witness :
  ∃ m,
    all (triageDatasets (helpers := SpecHelpers.specHelpers)
           Examples.ascending ∅ Examples.triaged Examples.origins)
      !! "rpool/ROOT/u1" = Some m
    ∧ ∃ d, d ∈ addressed Examples.triaged
           ∧ zfs.Name (deref d) = "rpool/ROOT/u1"
           ∧ head (State.SystemDatasets (Machine.State m)) = Some d
           ∧ lastUsedAgrees (deref d) (Machine.State m).
Proof.
  eexists. split; [vm_compute; reflexivity|].
  refine (proj1 (last_used_absent_iff_zero
                   (helpers := SpecHelpers.specHelpers) Examples.ascending
                   Examples.triaged Examples.origins "rpool/ROOT/u1" _ _)).
  vm_compute. reflexivity.
Defined.

(** ** The flat list of user datasets (C8) *)

Lemma mountableUserDatasets_filter (ds : list DatasetPtr) :
  mountableUserDatasets ds
  = List.filter (λ d, negb (String.eqb (zfs.CanMount (deref d)) "off")) ds.
Proof.
  induction ds as [|d ds IH]; [done|]. simpl. rewrite IH.
  by destruct (String.eqb (zfs.CanMount (deref d)) "off").
Qed.

(** C8: when [refresh] completes on a fresh [Machines] value,
    [allUsersDatasets] is the user bucket of the triage with the datasets
    whose [CanMount] is ["off"] left out, in the order of the bucket; no
    dataset with [CanMount == "off"] is in it. *)
Theorem all_users_datasets_mountable {helpers : Helpers} (order : MapOrder)
    (heap : gmap nat Zfs) (cmdline : string) (z : nat)
    (machines' : Machines) (err : option error) :
  refresh order heap (emptyMachines cmdline z) = Some (machines', err) →
  ∃ zfsState,
    heap !! z = Some zfsState
    ∧ Machines.allUsersDatasets machines'
      = List.filter (λ d, negb (String.eqb (zfs.CanMount (deref d)) "off"))
          (userdatas (triageOf order zfsState ∅))
    ∧ ∀ d, d ∈ Machines.allUsersDatasets machines' →
           zfs.CanMount (deref d) ≠ "off".
Proof.
  unfold refresh. simpl. intros Hr.
  destruct (heap !! z) as [zfsState|]; [|done]. simpl in Hr.
  destruct (withOrigins _ _) as [uds|]; [|done]. simpl in Hr.
  destruct (attachMachines _ _ _ _ _ _ _) as [attached|]; [|done].
  simpl in Hr. injection Hr as <- <-. simpl.
  exists zfsState. rewrite mountableUserDatasets_filter.
  split_and!; [done..|].
  intros d [_ Hd]%list_elem_of_In%filter_In.
  by apply negb_true_iff, String.eqb_neq in Hd.
Qed.

(** On the example inventory, bob's home has [canmount=off] and only
    alice's is listed. *)
Lemma all_users_datasets_mountable_witness :
  ∃ machines',
    refresh (helpers := SpecHelpers.specHelpers) Examples.ascending
      Examples.heap (emptyMachines Examples.cmdline 7)
    = Some (machines', None)
    ∧ (zfs.Name ∘ deref) <$> Machines.allUsersDatasets machines'
      = ["rpool/USERDATA/alice_abcd"]
    ∧ ∃ zfsState,
        Examples.heap !! 7%nat = Some zfsState
        ∧ Machines.allUsersDatasets machines'
          = List.filter
              (λ d, negb (String.eqb (zfs.CanMount (deref d)) "off"))
              (userdatas
                 (triageOf (helpers := SpecHelpers.specHelpers)
                    Examples.ascending zfsState ∅))
        ∧ ∀ d, d ∈ Machines.allUsersDatasets machines' →
               zfs.CanMount (deref d) ≠ "off".
Proof.
  eexists. split; [vm_compute; reflexivity|]. split; [reflexivity|].
  apply (all_users_datasets_mountable
           (helpers := SpecHelpers.specHelpers) Examples.ascending
           Examples.heap Examples.cmdline 7 _ None).
  vm_compute. reflexivity.
Defined.

(** ** A failed [Refresh] (C7) *)

(** C7: when [Refresh] does not return a nil error, the receiver is the
    value it was before the call, in all its fields; the receiver is
    replaced only by the value of a [refresh] that completed, on the
    re-scanned adapter. *)
Theorem Refresh_failure_keeps_receiver {helpers : Helpers} (order : MapOrder)
    (heap heap' : gmap nat Zfs) (machines machines' : Machines)
    (result : outcome) :
  Refresh order heap machines = (heap', machines', result) →
  (result ≠ Returned None → machines' = machines)
  ∧ (result = Returned None →
     refresh order heap'
       (emptyMachines (Machines.cmdline machines) (Machines.z machines))
     = Some (machines', None)).
Proof.
  unfold Refresh. simpl.
  destruct (heap !! Machines.z machines) as [zfsState|];
    [|intros [= <- <- <-]; done].
  destruct (zfsRefresh zfsState) as [zfsState' [e|]];
    [intros [= <- <- <-]; done|].
  destruct (refresh _ _ _) as [[new [e|]]|] eqn:Hnew;
    intros [= <- <- <-]; done.
Qed.

(** The first scan of the example adapter fails: [Refresh] returns the
    error and the assembled value stays. *)
Lemma Refresh_failure_keeps_receiver_witness :
  ∃ heap' machines' e,
    Refresh (helpers := SpecHelpers.specHelpers) Examples.ascending
      Examples.heap Examples.assembled
    = (heap', machines', Returned (Some e))
    ∧ machines' = Examples.assembled.
Proof.
  eexists _, _, _. split; [vm_compute; reflexivity|].
  refine (proj1 (Refresh_failure_keeps_receiver
                   (helpers := SpecHelpers.specHelpers) Examples.ascending
                   Examples.heap _ Examples.assembled _
                   (Returned (Some "couldn't scan zfs filesystem")) _) _).
  - vm_compute. reflexivity.
  - discriminate.
Defined.

(** ** The first dataset of a user state (C10) *)

Section UsersFacts.
Variable order : MapOrder.

Lemma userStateAt_insert_user (users : gmap string (gmap string UserState))
    (user user' timestamp : string) (states : gmap string UserState) :
  userStateAt (<[user := states]> users) user' timestamp
  = if decide (user = user') then states !! timestamp
    else userStateAt users user' timestamp.
Proof.
  unfold userStateAt. rewrite lookup_insert. by case_decide.
Qed.

(** The slot that one iteration of the loop of lines 375-431 fills. *)
Lemma addUser_userStateAt (userdatas : list (DatasetPtr * originAndChildren))
    (roots : list DatasetPtr) (users : gmap string (gmap string UserState))
    (r : DatasetPtr) (dprop : originAndChildren) (user timestamp : string) :
  userStateAt (addUser userdatas roots users (r, dprop)) user timestamp
  = if isRelative userdatas roots r dprop
       && bool_decide (userOf r = user ∧ timestampOf roots r = timestamp)
    then match userStateAt users user timestamp with
         | Some userState => Some userState
         | None => Some (userStateOf r dprop)
         end
    else userStateAt users user timestamp.
Proof.
  unfold addUser. destruct (isRelative userdatas roots r dprop); [|done].
  cbn [negb andb].
  set (users1 := match users !! userOf r with
                 | Some _ => users
                 | None => <[userOf r := ∅]> users
                 end).
  assert (∀ u t, userStateAt users1 u t = userStateAt users u t) as Hsame.
  { intros u t. subst users1. destruct (users !! userOf r) eqn:Hu; [done|].
    rewrite userStateAt_insert_user. case_decide as Heq; [|done].
    subst u. unfold userStateAt. by rewrite Hu, lookup_empty. }
  assert (default ∅ (users1 !! userOf r) !! timestampOf roots r
          = userStateAt users (userOf r) (timestampOf roots r)) as Hslot.
  { rewrite <- Hsame. unfold userStateAt.
    destruct (users1 !! userOf r); simpl; [done | by rewrite lookup_empty]. }
  rewrite Hslot.
  destruct (userStateAt users (userOf r) (timestampOf roots r)) as [us0|]
    eqn:Hcur.
  - rewrite Hsame. case_bool_decide as Hkey; [|done].
    destruct Hkey as [<- <-]. by rewrite Hcur.
  - rewrite userStateAt_insert_user. case_decide as Hu.
    + subst user. destruct (decide (timestampOf roots r = timestamp))
        as [<-|Hne].
      * rewrite lookup_insert_eq, bool_decide_eq_true_2 by done.
        by rewrite Hcur.
      * rewrite lookup_insert_ne, bool_decide_eq_false_2 by naive_solver.
        rewrite <- (Hsame (userOf r) timestamp). unfold userStateAt.
        destruct (users1 !! userOf r); simpl; [done | by rewrite lookup_empty].
    + rewrite bool_decide_eq_false_2 by naive_solver. apply Hsame.
Qed.

Lemma userStateOf_Datasets (r : DatasetPtr) (dprop : originAndChildren) :
  UserState.Datasets (userStateOf r dprop) = r :: children dprop.
Proof. done. Qed.

(** Every state of the map built for a machine is a root of [userdatas]
    followed by its children. *)
Lemma buildUsers_from_entry (id : string)
    (userdatas : list (DatasetPtr * originAndChildren))
    (user timestamp : string) (userState : UserState) :
  userStateAt (buildUsers order id userdatas ∅) user timestamp
    = Some userState →
  ∃ r dprop, (r, dprop) ∈ userdatas ∧ userState = userStateOf r dprop.
Proof.
  unfold buildUsers.
  pose proof (rangeOrder_Permutation
                (λ e, userdatasOrder order id (addr e.1)) userdatas) as Hperm.
  revert Hperm.
  generalize (rangeOrder (λ e, userdatasOrder order id (addr e.1)) userdatas).
  intros visits Hperm.
  assert (∀ e, e ∈ visits → e ∈ userdatas) as Hsub
    by (intros e; by rewrite Hperm).
  clear Hperm. revert userState.
  induction visits as [|[r dprop] visits IH] using rev_ind; intros userState.
  - unfold userStateAt. simpl. by rewrite lookup_empty.
  - rewrite fold_left_app. cbn [fold_left]. rewrite addUser_userStateAt.
    destruct (_ && _).
    + destruct (userStateAt _ user timestamp) as [us0|] eqn:Hcur.
      * intros [= <-]. apply IH; [|done]. intros e He. apply Hsub.
        set_solver.
      * intros [= <-]. exists r, dprop. split; [|done]. apply Hsub.
        set_solver.
    + intros Hs. apply IH; [|done]. intros e He. apply Hsub. set_solver.
Qed.

Lemma buildUsers_usersNonEmpty (id : string)
    (userdatas : list (DatasetPtr * originAndChildren)) :
  usersNonEmpty (buildUsers order id userdatas ∅).
Proof.
  intros user timestamp userState Hs.
  by apply buildUsers_from_entry in Hs as (r & dprop & _ & ->).
Qed.

Lemma elem_of_userStatesOf (id user : string)
    (users : gmap string (gmap string UserState)) (userState : UserState) :
  userState ∈ userStatesOf order id user users →
  ∃ timestamp, userStateAt users user timestamp = Some userState.
Proof.
  unfold userStatesOf, userStateAt. rewrite list_elem_of_omap.
  intros (timestamp & Hin & Hs). exists timestamp.
  destruct (users !! user); [done|]. simpl in Hs.
  by rewrite lookup_empty in Hs.
Qed.

Lemma snapshotUserDatasets_is_Some (snapshot : string)
    (userStates : list UserState) :
  Forall (λ userState, UserState.Datasets userState ≠ []) userStates →
  is_Some (snapshotUserDatasets snapshot userStates).
Proof.
  induction 1 as [|userState userStates Hne _ [rest IH]]; simpl; [done|].
  destruct (UserState.Datasets userState) as [|d0 ds]; [done|].
  rewrite IH. simpl. by repeat case_match.
Qed.

Lemma cloneUserDatasets_is_Some (id : string) (userStates : list UserState) :
  Forall (λ userState, UserState.Datasets userState ≠ []) userStates →
  is_Some (cloneUserDatasets id userStates).
Proof.
  induction 1 as [|userState userStates Hne _ IH]; simpl; [done|].
  destruct (UserState.Datasets userState) as [|d0 ds]; [done|].
  by repeat case_match.
Qed.

Lemma historyUserDatasets_is_Some (id snapshot : string)
    (users : gmap string (gmap string UserState)) (keys : list string) :
  usersNonEmpty users →
  is_Some (historyUserDatasets order id snapshot users keys).
Proof.
  intros Hne. induction keys as [|user keys [rest IH]]; simpl; [done|].
  assert (Forall (λ userState, UserState.Datasets userState ≠ [])
            (userStatesOf order id user users)) as Hall.
  { apply Forall_forall. intros userState [ts Hts]%elem_of_userStatesOf.
    by eapply Hne. }
  rewrite IH.
  destruct (negb (String.eqb snapshot "")).
  - destruct (snapshotUserDatasets_is_Some snapshot _ Hall) as [ds ->]. done.
  - destruct (cloneUserDatasets_is_Some id _ Hall) as [ds ->]. done.
Qed.

Lemma attachRemainingDatasetsForHistory_is_Some (h : State)
    (boots persistents : list DatasetPtr)
    (users : gmap string (gmap string UserState)) :
  usersNonEmpty users →
  is_Some (attachRemainingDatasetsForHistory order h boots persistents users).
Proof.
  intros Hne. unfold attachRemainingDatasetsForHistory.
  destruct (historyUserDatasets_is_Some
              (State.ID (State.appendSystemDatasets h
                 (historyBoots (snapshotOf (lastSegment (State.ID h)))
                    (lastSegment (State.ID h)) boots)))
              (snapshotOf (lastSegment (State.ID h))) users
              (rangeOrder
                 (historyUsersOrder order
                    (State.ID (State.appendSystemDatasets h
                       (historyBoots (snapshotOf (lastSegment (State.ID h)))
                          (lastSegment (State.ID h)) boots))))
                 (mapKeys users)) Hne) as [ds Hds].
  rewrite Hds. done.
Qed.

Lemma attachHistory_is_Some (boots persistents : list DatasetPtr)
    (users : gmap string (gmap string UserState))
    (history : gmap string State) (keys : list string) :
  usersNonEmpty users →
  (∀ k, k ∈ keys → is_Some (history !! k)) →
  is_Some (attachHistory order boots persistents users history keys).
Proof.
  intros Hne. revert history.
  induction keys as [|k keys IH]; intros history Hkeys; simpl; [done|].
  destruct (Hkeys k) as [h ->]; [set_solver|]. simpl.
  destruct (attachRemainingDatasetsForHistory_is_Some h boots persistents
              users Hne) as [h' ->]. simpl.
  apply IH. intros k' Hk'. rewrite lookup_insert. case_decide; [done|].
  apply Hkeys. set_solver.
Qed.

End UsersFacts.

(** C10: every user state of the map that [attachRemainingDatasets] builds
    for a machine (from the empty map of a new machine) has a non-empty
    [Datasets] list, whose first element is the root user dataset it was
    made from, followed by the children of that root; the
    [userState.Datasets[0]] accesses of the history attachment are in
    bounds, so that neither it nor [attachRemainingDatasets] panics. *)
Theorem user_state_first_dataset (order : MapOrder) (id : string)
    (userdatas : list (DatasetPtr * originAndChildren)) :
  let users := buildUsers order id userdatas ∅ in
  (∀ user timestamp userState,
     userStateAt users user timestamp = Some userState →
     ∃ r dprop,
       (r, dprop) ∈ userdatas
       ∧ UserState.Datasets userState = r :: children dprop
       ∧ head (UserState.Datasets userState) = Some r)
  ∧ (∀ h boots persistents,
       is_Some (attachRemainingDatasetsForHistory order h boots persistents
                  users))
  ∧ (∀ m boots persistents,
       Machine.ID m = id → Machine.Users m = ∅ →
       is_Some (attachRemainingDatasets order m boots persistents userdatas)).
Proof.
  intros users. split_and!.
  - intros user timestamp userState Hs.
    apply buildUsers_from_entry in Hs as (r & dprop & Hin & ->).
    by exists r, dprop.
  - intros h boots persistents.
    apply attachRemainingDatasetsForHistory_is_Some,
      buildUsers_usersNonEmpty.
  - intros m boots persistents <- Hempty. unfold attachRemainingDatasets.
    rewrite Hempty.
    destruct (attachHistory_is_Some order boots persistents
                (buildUsers order (Machine.ID m) userdatas ∅)
                (Machine.History m) (sortedStateKeys (Machine.History m)))
      as [history ->]; [apply buildUsers_usersNonEmpty | | done].
    intros k. apply elem_of_sortedKeys.
Qed.

(** ** The users of a machine (C6) *)

Section RelatedFacts.
Variable userdatas : list (DatasetPtr * originAndChildren).
Variable roots : list DatasetPtr.

Lemma ptrEq_addr (p q : DatasetPtr) : ptrEq p q = true ↔ addr p = addr q.
Proof. unfold ptrEq. apply Nat.eqb_eq. Qed.

Lemma isRelative_relatedTo (r : DatasetPtr) (dprop : originAndChildren) :
  isRelative userdatas roots r dprop = true ↔ relatedTo userdatas roots r dprop.
Proof.
  unfold isRelative, relatedTo. rewrite existsb_exists.
  split; intros (u & Hu & Hrel); exists u; (split; [by apply list_elem_of_In|]);
    revert Hrel;
    rewrite !orb_true_iff, !andb_true_iff, negb_true_iff, !String.eqb_eq,
      String.eqb_neq, ptrEq_addr; tauto.
Qed.

Lemma fills_test (user timestamp : string) (r : DatasetPtr)
    (dprop : originAndChildren) :
  isRelative userdatas roots r dprop
  && bool_decide (userOf r = user ∧ timestampOf roots r = timestamp) = true
  ↔ fills userdatas roots user timestamp (r, dprop).
Proof.
  unfold fills.
  rewrite andb_true_iff, bool_decide_eq_true, isRelative_relatedTo. done.
Qed.

(** A slot is empty when no visited entry fills it, and otherwise holds
    the state of the first visited entry that fills it. *)
Lemma fold_addUser_slot (visits : list (DatasetPtr * originAndChildren))
    (user timestamp : string) :
  match userStateAt (fold_left (addUser userdatas roots) visits ∅)
          user timestamp with
  | None => ∀ e, e ∈ visits → ¬ fills userdatas roots user timestamp e
  | Some userState =>
      ∃ pre e post,
        visits = pre ++ e :: post
        ∧ fills userdatas roots user timestamp e
        ∧ userState = userStateOf e.1 e.2
        ∧ ∀ e', e' ∈ pre → ¬ fills userdatas roots user timestamp e'
  end.
Proof.
  induction visits as [|[r dprop] visits IH] using rev_ind.
  - unfold userStateAt. simpl. rewrite lookup_empty. simpl.
    intros e He. by apply elem_of_nil in He.
  - rewrite fold_left_app. cbn [fold_left]. rewrite addUser_userStateAt.
    destruct (_ && _) eqn:Htest.
    + apply fills_test in Htest.
      destruct (userStateAt _ user timestamp) as [us0|].
      * destruct IH as (pre & e & post & -> & ? & ? & ?).
        exists pre, e, (post ++ [(r, dprop)]).
        by rewrite <- app_assoc.
      * exists visits, (r, dprop), []. done.
    + assert (¬ fills userdatas roots user timestamp (r, dprop)) as Hno.
      { rewrite <- fills_test. by rewrite Htest. }
      destruct (userStateAt _ user timestamp) as [us0|].
      * destruct IH as (pre & e & post & -> & ? & ? & ?).
        exists pre, e, (post ++ [(r, dprop)]).
        by rewrite <- app_assoc.
      * intros e [He | ->%list_elem_of_singleton]%elem_of_app; [by apply IH|].
        done.
Qed.

End RelatedFacts.

Lemma first_occurrence_unique {A : Type} (Q : A → Prop)
    (pre pre' post post' : list A) (x x' : A) :
  pre ++ x :: post = pre' ++ x' :: post' →
  Q x → Q x' →
  (∀ y, y ∈ pre → ¬ Q y) → (∀ y, y ∈ pre' → ¬ Q y) →
  pre = pre' ∧ x = x' ∧ post = post'.
Proof.
  revert pre'. induction pre as [|a pre IH]; intros [|a' pre'] Heq Hx Hx' Hp Hp';
    simpl in Heq.
  - by injection Heq as -> ->.
  - injection Heq as -> _. destruct (Hp' a'); [set_solver | done].
  - injection Heq as -> _. destruct (Hp x'); [set_solver | done].
  - injection Heq as -> Heq.
    destruct (IH pre' Heq Hx Hx') as (-> & -> & ->); [set_solver.. | done].
Qed.

(** C6, counterexample: the two snapshots of alice's home were taken in
    the same second.  Both have the root linked to the machine as origin,
    but only the first one visited is stored in [m.Users]: the second finds
    the slot of that user and time taken. *)
Lemma users_of_machine_counterexample :
  let id := "rpool/ROOT/u1" in
  let roots := userRootDatasetsOf Examples.ascending id Examples.aliceUserdatas in
  let users := buildUsers Examples.ascending id Examples.aliceUserdatas ∅ in
  ¬ (∀ r dprop,
       (r, dprop) ∈ Examples.aliceUserdatas →
       (includedInUsers users r dprop
        ↔ relatedAsSpecified Examples.aliceUserdatas roots r dprop)).
Proof.
  intros id roots users Hclaim.
  destruct (Hclaim Examples.aliceSnap2
              {| origin := "rpool/USERDATA/alice_abcd"; children := [] |})
    as [_ Hincl]; [set_solver|].
  destruct Hincl as (user & timestamp & userState & Hat & Hds).
  - exists Examples.aliceHome. split; [|auto].
    subst roots id. vm_compute. left.
  - assert (users =
            {[ "alice" :=
                 <[ "current" := userStateOf Examples.aliceHome
                                   {| origin := ""; children := [] |} ]>
                 {[ "1577836800" :=
                      userStateOf Examples.aliceSnap1
                        {| origin := "rpool/USERDATA/alice_abcd";
                           children := [] |} ]} ]}) as Husers
      by (vm_compute; reflexivity).
    rewrite Husers in Hat. unfold userStateAt in Hat.
    apply bind_Some in Hat as (states & Hu & Hts).
    apply lookup_singleton_Some in Hu as [<- <-].
    apply lookup_insert_Some in Hts as [[<- <-] | [_ Hts]]; [done|].
    apply lookup_singleton_Some in Hts as [<- <-]. done.
Qed.

(** C6, as amended: the entries of [userdatas] are visited once each, in
    an order the map chooses.  A slot of [m.Users] (a user name and a
    timestamp) holds a state iff some visited entry [r'] fills it, that is:
    [r'] is related to the machine (it is one of [userRootDatasets]; or its
    origin is not empty and equals the origin of one of them; or one of
    them has an empty origin and [r'] has its name as origin; or [r'] has
    an empty origin and one of them has the name of [r'] as origin), its
    user name is the slot's, and its timestamp (["current"] when it is one
    of [userRootDatasets], else its decimal [LastUsed]) is the slot's.  The
    state is then [r'] with its children, for the first such entry in
    visiting order. *)
Theorem users_of_machine (order : MapOrder) (id : string)
    (userdatas : list (DatasetPtr * originAndChildren)) :
  let roots := userRootDatasetsOf order id userdatas in
  let visits :=
    rangeOrder (λ e, userdatasOrder order id (addr e.1)) userdatas in
  let users := buildUsers order id userdatas ∅ in
  visits ≡ₚ userdatas
  ∧ ∀ user timestamp userState,
      userStateAt users user timestamp = Some userState ↔
      ∃ pre r dprop post,
        visits = pre ++ (r, dprop) :: post
        ∧ relatedTo userdatas roots r dprop
        ∧ userOf r = user
        ∧ timestampOf roots r = timestamp
        ∧ userState = userStateOf r dprop
        ∧ UserState.Datasets userState = r :: children dprop
        ∧ ∀ r' dprop',
            (r', dprop') ∈ pre →
            relatedTo userdatas roots r' dprop' →
            ¬ (userOf r' = user ∧ timestampOf roots r' = timestamp).
Proof.
  intros roots visits users. split; [apply rangeOrder_Permutation|].
  intros user timestamp userState.
  pose proof (fold_addUser_slot userdatas roots visits user timestamp) as Hslot.
  change (fold_left (addUser userdatas roots) visits ∅) with users in Hslot.
  split.
  - intros Hat. rewrite Hat in Hslot.
    destruct Hslot as (pre & [r dprop] & post & Hv & (? & ? & ?) & -> & Hpre).
    exists pre, r, dprop, post. split_and!; [done..|].
    intros r' dprop' Hin Hrel Hkey. by apply (Hpre (r', dprop')).
  - intros (pre & r & dprop & post & Hv & Hrel & Hu & Ht & -> & _ & Hpre).
    assert (fills userdatas roots user timestamp (r, dprop)) as Hfills
      by done.
    assert (∀ e, e ∈ pre → ¬ fills userdatas roots user timestamp e) as Hpre'.
    { intros [r' dprop'] Hin (? & ? & ?). by eapply Hpre. }
    destruct (userStateAt users user timestamp) as [us0|].
    + destruct Hslot as (pre0 & e0 & post0 & Hv0 & Hf0 & -> & Hpre0).
      rewrite Hv in Hv0.
      by destruct (first_occurrence_unique _ _ _ _ _ _ _ Hv0 Hfills Hf0
                     Hpre' Hpre0) as (_ & <- & _).
    + destruct (Hslot (r, dprop)); [|done]. rewrite Hv. set_solver.
Qed.

(** ** The history of a machine (C3) *)

Section ListFacts.
Context {A : Type}.

Lemma snoc_decompose (l pre post : list A) (d x : A) :
  l ++ [d] = pre ++ x :: post →
  (pre = l ∧ x = d ∧ post = [])
  ∨ ∃ post', post = post' ++ [d] ∧ l = pre ++ x :: post'.
Proof.
  destruct post as [|y post _] using rev_ind; intros Heq.
  - apply app_inj_tail in Heq as [-> ->]. by left.
  - right. exists post.
    change (pre ++ x :: post ++ [y]) with (pre ++ (x :: post) ++ [y]) in Heq.
    rewrite app_assoc in Heq. by apply app_inj_tail in Heq as [-> ->].
Qed.

Lemma app_decompose (l1 l2 pre post : list A) (x : A) :
  l1 ++ l2 = pre ++ x :: post →
  (∃ post1, l1 = pre ++ x :: post1)
  ∨ ∃ pre2, l2 = pre2 ++ x :: post ∧ pre = l1 ++ pre2.
Proof.
  revert pre. induction l1 as [|a l1 IH]; intros pre Heq; simpl in Heq.
  - right. by exists pre.
  - destruct pre as [|b pre]; simpl in Heq; injection Heq as -> Heq.
    + left. by exists l1.
    + destruct (IH pre Heq) as [[post1 ->] | (pre2 & -> & ->)].
      * left. by exists post1.
      * right. by exists pre2.
Qed.

Lemma position_unique (l pre pre' post post' : list A) (x : A) :
  NoDup l → l = pre ++ x :: post → l = pre' ++ x :: post' → pre = pre'.
Proof.
  intros Hnd Hl Hl'.
  assert (∀ p q, l = p ++ x :: q → ∀ y, y ∈ p → y ≠ x) as Hfresh.
  { intros p q -> y Hy ->. apply NoDup_app in Hnd as (_ & Hdisj & _).
    apply (Hdisj x Hy). set_solver. }
  rewrite Hl in Hl'.
  by destruct (first_occurrence_unique (λ y, y = x) _ _ _ _ _ _ Hl'
                 eq_refl eq_refl (Hfresh _ _ Hl)
                 (Hfresh _ _ (eq_trans Hl Hl'))) as (-> & _).
Qed.

End ListFacts.

Section TakesFacts.
Context {helpers : Helpers}.

Lemma takes_ID (d : DatasetPtr) (origin : option string) (m m' : Machine) :
  takes d origin m m' → Machine.ID m' = Machine.ID m.
Proof. by destruct 1. Qed.

(** The history keys of a machine after it took a dataset. *)
Lemma takes_history_keys (d : DatasetPtr) (origin : option string)
    (m m' : Machine) (n : string) :
  takes d origin m m' →
  is_Some (Machine.History m' !! n) ↔
  is_Some (Machine.History m !! n)
  ∨ (n = zfs.Name (deref d)
     ∧ isChildOk (Machine.ID m) (deref d) = false
     ∧ isRootOf (deref d) origin (Machine.ID m) = true).
Proof.
  destruct 1 as [Hc | Hc Hr | hk h Hc Hr Hhk Hhc]; simpl.
  - split; [by left | intros [? | (_ & ? & _)]; [done | congruence]].
  - rewrite lookup_insert_is_Some. split.
    + intros [<- | [_ ?]]; [by right | by left].
    + intros [? | (-> & _)]; [|by left].
      destruct (decide (zfs.Name (deref d) = n)); [by left | by right].
  - rewrite lookup_insert_is_Some. split.
    + intros [<- | [_ ?]]; left; [by eexists | done].
    + intros [? | (_ & _ & ?)]; [|congruence].
      destruct (decide (hk = n)); [by left | by right].
Qed.

(** A machine that takes a dataset without making it a history state takes
    it as a child. *)
Lemma takes_as_child (d : DatasetPtr) (origin : option string)
    (m m' : Machine) :
  takes d origin m m' →
  isRootOf (deref d) origin (Machine.ID m) = false
  ∨ isChildOk (Machine.ID m) (deref d) = true →
  isChildOk (Machine.ID m) (deref d) = true
  ∨ ∃ hk h, Machine.History m !! hk = Some h
            ∧ isChildOk (State.ID h) (deref d) = true.
Proof.
  destruct 1 as [Hc | Hc Hr | hk h Hc Hr Hhk Hhc]; intros [?|?];
    try congruence; eauto.
Qed.

End TakesFacts.

Section HistoryFacts.
Context {helpers : Helpers}.
Variable order : MapOrder.
Variable origins : string → option string.

#[local] Abbreviation triaged l :=
  (all (triageFrom order origins (triageStart ∅) l)).

(** Machines are stored under their id, and the history keys of a machine
    with a non-empty id are the history roots found so far. *)
#[local] Abbreviation explained l :=
  (∀ k m, triaged l !! k = Some m →
     Machine.ID m = k
     ∧ (k ≠ "" →
        ∀ n, is_Some (Machine.History m !! n)
             ↔ historyRootOf order origins l k n)).

Lemma NoDup_machine_keys (d : DatasetPtr) (all : gmap string Machine) :
  NoDup (rangeOrder (machinesOrder order d) (mapKeys all)).
Proof. rewrite rangeOrder_Permutation. apply NoDup_mapKeys. Qed.

Lemma historyRootOf_snoc (l : list DatasetPtr) (d : DatasetPtr)
    (k n : string) :
  historyRootOf order origins (l ++ [d]) k n ↔
  historyRootOf order origins l k n
  ∨ (zfs.Name (deref d) = n
     ∧ mountableRootOf (deref d) (origins n) k
     ∧ ¬ takenAsChildBefore order (triaged l) d k).
Proof.
  split.
  - intros (pre & x & post & Heq & ? & ? & ?).
    apply snoc_decompose in Heq as [(-> & -> & ->) | (post' & -> & ->)].
    + by right.
    + left. by exists pre, x, post'.
  - intros [(pre & x & post & -> & ? & ? & ?) | (? & ? & ?)].
    + exists pre, x, (post ++ [d]). by rewrite <- app_assoc.
    + by exists l, d, [].
Qed.

Lemma mainsFirst_prefix (l l' : list DatasetPtr) :
  mainsFirst origins (l ++ l') → mainsFirst origins l.
Proof.
  intros Hmf pre d post -> Ho. apply (Hmf pre d (post ++ l')); [|done].
  by rewrite <- app_assoc.
Qed.

(** A main dataset: it makes a machine without history, or is taken as a
    child; it is the history root of no machine with a non-empty id. *)
Lemma explained_main (l : list DatasetPtr) (d : DatasetPtr) :
  mainsFirst origins (l ++ [d]) →
  mountableRootOf (deref d) (origins (zfs.Name (deref d))) "" →
  explained l → explained (l ++ [d]).
Proof.
  intros Hmf Hroot IH k m. rewrite triageFrom_snoc, triageDataset_all.
  assert (origins (zfs.Name (deref d)) = Some "") as Ho by apply Hroot.
  assert (∀ k' n, k' ≠ "" → ¬ historyRootOf order origins (l ++ [d]) k' n)
    as Hnone.
  { intros k' n Hk' (pre & x & post & Heq & Hn & (_ & _ & Hox) & _).
    assert (origins (zfs.Name (deref x)) = Some "") as Hx.
    { apply snoc_decompose in Heq as [(-> & -> & ->) | (post' & -> & ->)];
        [done|].
      apply (Hmf (pre ++ x :: post') d []); [done | done | set_solver]. }
    rewrite Hn in Hx. congruence. }
  destruct (newMachineFromDataset d _) as [m0|] eqn:Hnew;
    [|by apply newMachineFromDataset_None in Hnew].
  apply newMachineFromDataset_Some in Hnew as [_ ->].
  destruct (decide (zfs.Name (deref d) = k)) as [<-|Hne].
  - rewrite lookup_insert_eq. intros [= <-]. split; [done|]. intros Hk n.
    simpl. rewrite lookup_empty. split; [by intros [? ?]|].
    intros Hr. by destruct (Hnone _ n Hk).
  - rewrite lookup_insert_ne by done. intros Hk.
    destruct (IH k m Hk) as [Hid Hh]. split; [done|]. intros Hkne n.
    rewrite (Hh Hkne n), historyRootOf_snoc. split; [by left|].
    intros Hr. apply historyRootOf_snoc in Hr. by destruct (Hnone _ n Hkne).
Qed.

(** Any other dataset: no machine is made, and at most one machine takes
    the dataset. *)
Lemma explained_other (l : list DatasetPtr) (d : DatasetPtr) :
  ¬ mountableRootOf (deref d) (origins (zfs.Name (deref d))) "" →
  explained l → explained (l ++ [d]).
Proof.
  intros Hroot%newMachineFromDataset_None IH k m.
  rewrite triageFrom_snoc, triageDataset_all, Hroot.
  destruct (attachSystemAndHistory_spec order d
              (origins (zfs.Name (deref d))) (triaged l))
    as [[Heq Hdecl]
       | (pre & k0 & post & m0 & m0' & Hkeys & Hk0 & Htakes & Heq & Hpre)];
    rewrite Heq; simpl.
  - intros Hk. destruct (IH k m Hk) as [Hid Hh]. split; [done|].
    intros Hkne n. rewrite (Hh Hkne n), historyRootOf_snoc.
    split; [by left|]. intros [? | (<- & Hr & _)]; [done|]. exfalso.
    destruct (Hdecl k m Hk) as (_ & Hr' & _). rewrite Hid in Hr'.
    apply isRootOf_mountableRootOf in Hr. congruence.
  - destruct (IH k0 m0 Hk0) as [Hid0 Hh0].
    destruct (decide (k0 = k)) as [<-|Hne].
    + rewrite lookup_insert_eq. intros [= <-].
      split; [by rewrite (takes_ID _ _ _ _ Htakes)|]. intros Hkne n.
      rewrite (takes_history_keys _ _ _ _ n Htakes), (Hh0 Hkne n),
        historyRootOf_snoc, Hid0.
      apply or_iff_compat_l. split.
      * intros (-> & Hc & Hr).
        split_and!; [done | by apply isRootOf_mountableRootOf |].
        intros [? | (pre' & post' & k' & m' & Hkeys' & Hin & Hk' & Htaken)];
          [congruence|].
        assert (pre' = pre) as ->
          by (eapply position_unique;
                [apply (NoDup_machine_keys d (triaged l)) | done..]).
        destruct (Hpre k' m' Hin Hk') as (Hc' & _ & Hh').
        destruct Htaken as [? | (hk & h & Hhk & ?)]; [congruence|].
        rewrite (Hh' hk h Hhk) in *. done.
      * intros (<- & Hr%isRootOf_mountableRootOf & Hnot).
        split_and!; [done | | done].
        destruct (isChildOk k0 (deref d)) eqn:Hc; [|done].
        destruct Hnot. by left.
    + rewrite lookup_insert_ne by done. intros Hk.
      destruct (IH k m Hk) as [Hid Hh]. split; [done|]. intros Hkne n.
      rewrite (Hh Hkne n), historyRootOf_snoc. split; [by left|].
      intros [? | (<- & Hr & Hnot)]; [done|]. exfalso.
      assert (isRootOf (deref d) (origins (zfs.Name (deref d)))
                (Machine.ID m0) = false) as Hr0.
      { destruct (isRootOf _ _ (Machine.ID m0)) eqn:Hr0; [|done].
        apply isRootOf_mountableRootOf in Hr0 as (_ & _ & Ho0).
        destruct Hr as (_ & _ & Ho). congruence. }
      assert (k ∈ pre ++ k0 :: post) as Hin.
      { rewrite <- Hkeys. apply elem_of_rangeOrder, elem_of_mapKeys. eauto. }
      apply elem_of_app in Hin as [Hin | Hin].
      * destruct (Hpre k m Hin Hk) as (_ & Hr' & _). rewrite Hid in Hr'.
        apply isRootOf_mountableRootOf in Hr. congruence.
      * apply elem_of_cons in Hin as [-> | Hin]; [done|].
        apply list_elem_of_split in Hin as (post1 & post2 & ->).
        apply Hnot. right. exists (pre ++ k0 :: post1), post2, k0, m0.
        split_and!; [|set_solver | done |].
        -- rewrite Hkeys. by rewrite <- app_assoc.
        -- apply (takes_as_child _ _ _ _ Htakes). by left.
Qed.

Lemma explained_triage (l : list DatasetPtr) :
  mainsFirst origins l → explained l.
Proof.
  induction l as [|d l IH] using rev_ind; intros Hmf.
  - intros k m. simpl. by rewrite lookup_empty.
  - pose proof (IH (mainsFirst_prefix _ _ Hmf)) as IH'.
    destruct (decide (mountableRootOf (deref d)
                        (origins (zfs.Name (deref d))) "")).
    + by apply explained_main.
    + by apply explained_other.
Qed.

End HistoryFacts.

Section BucketFacts.
Context {helpers : Helpers}.
Variable origins : string → option string.

Lemma elem_of_imap_deref (f : nat → zfs.Dataset → DatasetPtr)
    (ds : list zfs.Dataset) (p : DatasetPtr) :
  (∀ i x, deref (f i x) = x) → p ∈ imap f ds → deref p ∈ ds.
Proof.
  intros Hf (i & x & -> & Hx)%elem_of_lookup_imap. rewrite Hf.
  by eapply list_elem_of_lookup_2.
Qed.

Lemma elem_of_mainDatasets (sorted : list DatasetPtr) (x : zfs.Dataset) :
  x ∈ mainDatasets origins sorted → origins (zfs.Name x) = Some "".
Proof.
  unfold mainDatasets. rewrite list_elem_of_fmap.
  intros (p & -> & [_ Hp]%list_elem_of_In%filter_In).
  destruct (origins (zfs.Name (deref p))) as [o|]; [|done].
  by apply String.eqb_eq in Hp as ->.
Qed.

Lemma elem_of_cloneDatasets (sorted : list DatasetPtr) (x : zfs.Dataset) :
  x ∈ cloneDatasets origins sorted → origins (zfs.Name x) ≠ Some "".
Proof.
  unfold cloneDatasets. rewrite list_elem_of_fmap.
  intros (p & -> & [_ Hp]%list_elem_of_In%filter_In).
  destruct (origins (zfs.Name (deref p))) as [o|]; [|done].
  apply negb_true_iff, String.eqb_neq in Hp. congruence.
Qed.

Lemma elem_of_otherDatasets (sorted : list DatasetPtr) (x : zfs.Dataset) :
  x ∈ otherDatasets origins sorted → origins (zfs.Name x) ≠ Some "".
Proof.
  unfold otherDatasets. rewrite list_elem_of_fmap.
  intros (p & -> & [_ Hp]%list_elem_of_In%filter_In).
  by destruct (origins (zfs.Name (deref p))).
Qed.

(** The argument that [refresh] gives to [triageDatasets] has its main
    datasets first. *)
Lemma mainsFirst_bucketed (sorted : list DatasetPtr) :
  mainsFirst origins (addressed (bucketed origins sorted)).
Proof.
  unfold bucketed, addressed. rewrite <- app_assoc, imap_app.
  intros pre d post Heq Ho d' Hd'.
  apply app_decompose in Heq as [[post1 Heq] | (pre2 & Heq & ->)].
  - apply (elem_of_mainDatasets sorted), (elem_of_imap_deref Ptr); [done|].
    rewrite Heq. set_solver.
  - exfalso.
    assert (deref d ∈ cloneDatasets origins sorted
                      ++ otherDatasets origins sorted) as Hd.
    { eapply elem_of_imap_deref; [|rewrite Heq; set_solver]. done. }
    apply elem_of_app in Hd as [Hd | Hd].
    + by apply elem_of_cloneDatasets in Hd.
    + by apply elem_of_otherDatasets in Hd.
Qed.

End BucketFacts.



(** ** Two passes over the same inventory (C1) *)

(** C1 fails on the code: the loop of line 434 ranges over the map
    [m.Users] itself, not over its sorted keys.  With the homes of alice
    and bob linked to the machine [rpool/ROOT/u1], an attachment that
    visits bob first and one that visits alice first give the machine's
    [UserDatasets] in two different orders; on the example inventory two
    whole passes complete and give two different [Machines] values. *)
Theorem refresh_depends_on_map_order :
  (∃ m1 m2,
     attachRemainingDatasets Examples.ascending Examples.machineU1 [] []
       Examples.homes = Some m1
     ∧ attachRemainingDatasets Examples.descending Examples.machineU1 [] []
         Examples.homes = Some m2
     ∧ (zfs.Name ∘ deref) <$> State.UserDatasets (Machine.State m1)
       = ["rpool/USERDATA/bob_efgh"; "rpool/USERDATA/alice_abcd"]
     ∧ (zfs.Name ∘ deref) <$> State.UserDatasets (Machine.State m2)
       = ["rpool/USERDATA/alice_abcd"; "rpool/USERDATA/bob_efgh"])
  ∧ ∃ machines1 machines2,
      refresh (helpers := SpecHelpers.specHelpers) Examples.ascending
        Examples.heap (emptyMachines Examples.cmdline 7)
      = Some (machines1, None)
      ∧ refresh (helpers := SpecHelpers.specHelpers) Examples.descending
          Examples.heap (emptyMachines Examples.cmdline 7)
        = Some (machines2, None)
      ∧ userDatasetNames machines1 "rpool/ROOT/u1"
        = ["rpool/USERDATA/bob_efgh"; "rpool/USERDATA/alice_abcd"]
      ∧ userDatasetNames machines2 "rpool/ROOT/u1"
        = ["rpool/USERDATA/alice_abcd"; "rpool/USERDATA/bob_efgh"]
      ∧ machines1 ≠ machines2.
Proof.
  split.
  - eexists _, _. split_and!; vm_compute; reflexivity.
  - eexists _, _. split; [vm_compute; reflexivity|].
    split; [vm_compute; reflexivity|].
    split; [vm_compute; reflexivity|].
    split; [vm_compute; reflexivity|].
    intros Heq.
    apply (f_equal (λ ms, userDatasetNames ms "rpool/ROOT/u1")) in Heq.
    vm_compute in Heq. discriminate.
Qed.

(** ** The example inventory, assembled *)

(** One machine, current; its history holds the snapshot and the clone of
    its root; the boot volume is attached to the machine only; the flat
    list of system datasets follows the machine, then its history in key
    order. *)
Example assembled_example :
  sortedMachineKeys (Machines.all Examples.assembled) = ["rpool/ROOT/u1"]
  ∧ Machines.current Examples.assembled = Some "rpool/ROOT/u1"
  ∧ (sortedStateKeys ∘ Machine.History)
      <$> Machines.all Examples.assembled !! "rpool/ROOT/u1"
    = Some ["rpool/ROOT/u1@snap"; "rpool/ROOT/u2"]
  ∧ (zfs.Name ∘ deref) <$> Machines.allSystemDatasets Examples.assembled
    = ["rpool/ROOT/u1"; "rpool/ROOT/u1/var"; "bpool/BOOT/u1";
       "rpool/ROOT/u1@snap"; "rpool/ROOT/u2"].
Proof. vm_compute. done. Qed.

(** * Further properties of the assembly *)

(** ** Which machines exist, and the three buckets of the triage *)

Section TriageResultFacts.
Context {helpers : Helpers}.
Variable order : MapOrder.
Variable origins : string → option string.

Lemma triageFrom_dom (t : Triage) (ds : list DatasetPtr) (k : string) :
  k ∈ dom (all (triageFrom order origins t ds)) ↔
  k ∈ dom (all t)
  ∨ ∃ d, d ∈ ds ∧ zfs.Name (deref d) = k
         ∧ mountableRootOf (deref d) (origins k) "".
Proof.
  induction ds as [|d ds IH] using rev_ind.
  - simpl. split; [by left | intros [? | (d & Hd & _)]; [done|]].
    by apply elem_of_nil in Hd.
  - rewrite triageFrom_snoc, triageDataset_all.
    destruct (newMachineFromDataset d _) as [m|] eqn:Hnew.
    + apply newMachineFromDataset_Some in Hnew as [Hroot _].
      rewrite dom_insert_L, elem_of_union, elem_of_singleton, IH. split.
      * intros [-> | [? | (d' & ? & ? & ?)]]; [right | by left | right].
        -- exists d. split_and!; [set_solver | done..].
        -- exists d'. split_and!; [set_solver | done..].
      * intros [? | (d' & [Hd' | ->%list_elem_of_singleton]%elem_of_app
                        & <- & ?)];
          [right; by left | right; right; by exists d' | by left].
    + apply newMachineFromDataset_None in Hnew.
      rewrite attachSystemAndHistory_dom, IH. split.
      * intros [? | (d' & ? & ? & ?)]; [by left | right].
        exists d'. split_and!; [set_solver | done..].
      * intros [? | (d' & [Hd' | ->%list_elem_of_singleton]%elem_of_app
                        & <- & ?)];
          [by left | right; by exists d' | done].
Qed.

Lemma elem_of_addressed (ds : list zfs.Dataset) (x : zfs.Dataset) :
  x ∈ ds ↔ ∃ p, p ∈ addressed ds ∧ deref p = x.
Proof.
  unfold addressed. split.
  - intros [i Hi]%list_elem_of_lookup_1. exists (Ptr i x). split; [|done].
    by apply (elem_of_lookup_imap_2 Ptr).
  - intros (p & (i & y & -> & Hy)%elem_of_lookup_imap & <-).
    by eapply list_elem_of_lookup_2.
Qed.

(** The buckets after one more dataset: each is the one before, or the
    one before with the dataset at its end. *)
Lemma triageDataset_buckets (t : Triage) (d : DatasetPtr) :
  let t' := triageDataset order origins t d in
  (boots t' = boots t ∧ userdatas t' = userdatas t
   ∧ persistents t' = persistents t)
  ∨ (¬ mountableRootOf (deref d) (origins (zfs.Name (deref d))) ""
     ∧ all t' = all t
     ∧ ((boots t' = boots t ++ [d] ∧ userdatas t' = userdatas t
         ∧ persistents t' = persistents t ∧ isBootVolume (deref d))
        ∨ (boots t' = boots t ∧ userdatas t' = userdatas t ++ [d]
           ∧ persistents t' = persistents t
           ∧ ¬ isBootVolume (deref d) ∧ isUserVolume (deref d))
        ∨ (boots t' = boots t ∧ userdatas t' = userdatas t
           ∧ persistents t' = persistents t ++ [d]
           ∧ ¬ isBootVolume (deref d) ∧ ¬ isUserVolume (deref d)
           ∧ zfs.CanMount (deref d) = "on"))).
Proof.
  unfold triageDataset, isBootVolume, isUserVolume.
  destruct (newMachineFromDataset d _) as [m|] eqn:Hnew; [by left|].
  apply newMachineFromDataset_None in Hnew.
  destruct (attachSystemAndHistory _ _ _ _) as [all' [|]]; [by left|].
  rewrite <- HasPrefix_isPrefixOf, <- Contains_isSubstringOf.
  destruct (HasPrefix (zfs.Mountpoint (deref d)) "/boot") eqn:Hb; simpl.
  { right. split_and!; [done..|]. by left. }
  destruct (Contains (ToLower (zfs.Name (deref d)))
              userdatasetsContainerName) eqn:Hu; simpl.
  { right. split_and!; [done..|]. right. left. by split_and!. }
  destruct (String.eqb_spec (zfs.CanMount (deref d)) "on") as [Hon|Hoff];
    simpl; [|by left].
  right. split_and!; [done..|]. right. right. by split_and!.
Qed.

End TriageResultFacts.


(** X2: the boots, user and persistent buckets that the triage returns are
    sub-sequences of its input, in the order of the input.  Every boot has
    a mountpoint that starts with ["/boot"]; every user dataset has
    ["/userdata/"] in its lowercased name and no such mountpoint; every
    persistent dataset has [CanMount == "on"] and is neither; none of them
    is a mountable main root. *)
Theorem triage_buckets {helpers : Helpers} (order : MapOrder)
    (machinesAll : gmap string Machine) (allDatasets : list zfs.Dataset)
    (origins : string → option string) :
  let t := triageDatasets order machinesAll allDatasets origins in
  let notMain (d : DatasetPtr) :=
    ¬ mountableRootOf (deref d) (origins (zfs.Name (deref d))) "" in
  (boots t `sublist_of` addressed allDatasets
   ∧ userdatas t `sublist_of` addressed allDatasets
   ∧ persistents t `sublist_of` addressed allDatasets)
  ∧ (∀ d, d ∈ boots t → isBootVolume (deref d) ∧ notMain d)
  ∧ (∀ d, d ∈ userdatas t →
          ¬ isBootVolume (deref d) ∧ isUserVolume (deref d) ∧ notMain d)
  ∧ (∀ d, d ∈ persistents t →
          ¬ isBootVolume (deref d) ∧ ¬ isUserVolume (deref d)
          ∧ zfs.CanMount (deref d) = "on" ∧ notMain d).
Proof.
  intros t notMain. subst t. unfold triageDatasets.
  generalize (addressed allDatasets). intros ds.
  induction ds as [|d ds IH] using rev_ind.
  - simpl. split_and!; try apply sublist_nil_l;
      intros d Hd; by apply elem_of_nil in Hd.
  - rewrite triageFrom_snoc.
    destruct IH as ((Sb & Su & Sp) & Hb & Hu & Hp).
    destruct (triageDataset_buckets order origins
                (triageFrom order origins (triageStart machinesAll) ds) d)
      as [(-> & -> & ->)
         | (Hn & _ & [(-> & -> & -> & ?)
                     | [(-> & -> & -> & ? & ?)
                       | (-> & -> & -> & ? & ? & ?)]])].
    + split_and!; [by apply sublist_inserts_r.. | done | done | done].
    + split_and!;
        [by apply sublist_app | by apply sublist_inserts_r
        | by apply sublist_inserts_r | | done | done].
      intros d' [? | ->%list_elem_of_singleton]%elem_of_app; [by apply Hb|].
      done.
    + split_and!;
        [by apply sublist_inserts_r | by apply sublist_app
        | by apply sublist_inserts_r | done | | done].
      intros d' [? | ->%list_elem_of_singleton]%elem_of_app; [by apply Hu|].
      done.
    + split_and!;
        [by apply sublist_inserts_r | by apply sublist_inserts_r
        | by apply sublist_app | done | done |].
      intros d' [? | ->%list_elem_of_singleton]%elem_of_app; [by apply Hp|].
      done.
Qed.

(** ** What the attachment adds to a machine and leaves alone *)

Section AttachmentFacts.
Variable order : MapOrder.

Lemma machineBoots_filter (machineDatasetID : string)
    (boots : list DatasetPtr) :
  machineBoots machineDatasetID boots =
    List.filter
      (λ d, negb (zfs.IsSnapshot (deref d))
            && (HasSuffix (zfs.Name (deref d)) ("/" +:+ machineDatasetID)
                || Contains (zfs.Name (deref d))
                     ("/" +:+ machineDatasetID +:+ "/")))
      boots.
Proof.
  induction boots as [|d boots IH]; [done|]. simpl. rewrite IH.
  destruct (zfs.IsSnapshot (deref d)); simpl; [done|].
  by destruct (HasSuffix _ _ || Contains _ _).
Qed.

Lemma attachRemainingDatasetsForHistory_attachedTo (h h' : State)
    (boots persistents : list DatasetPtr)
    (users : gmap string (gmap string UserState)) :
  attachRemainingDatasetsForHistory order h boots persistents users = Some h' →
  attachedTo h h' ∧ State.PersistentDatasets h' = persistents.
Proof.
  unfold attachRemainingDatasetsForHistory.
  destruct (historyUserDatasets _ _ _ _ _) as [uds|]; [|done].
  intros [= <-]. unfold attachedTo. simpl.
  split_and!; try done; by eexists.
Qed.

(** The loop of lines 454-457 attaches to each state once: to those under
    the keys it is given, when no key comes twice. *)
Lemma attachHistory_lookup (boots persistents : list DatasetPtr)
    (users : gmap string (gmap string UserState))
    (history history' : gmap string State) (keys : list string) :
  NoDup keys →
  attachHistory order boots persistents users history keys = Some history' →
  ∀ k, history' !! k
       = if decide (k ∈ keys)
         then history !! k ≫=
                (λ h, attachRemainingDatasetsForHistory order h boots
                        persistents users)
         else history !! k.
Proof.
  intros Hnd. revert history.
  induction Hnd as [|k0 keys Hk0 Hnd IH]; intros history; simpl.
  - by intros [= <-] k.
  - destruct (history !! k0) as [h|] eqn:Hh; [|done]. simpl.
    destruct (attachRemainingDatasetsForHistory order h boots persistents
                users) as [h'|] eqn:Hh'; [|done]. simpl.
    intros Hrec k. rewrite (IH _ Hrec k).
    destruct (decide (k = k0)) as [->|Hne].
    + rewrite decide_False, decide_True by set_solver.
      by rewrite lookup_insert_eq, Hh.
    + rewrite lookup_insert_ne by done.
      destruct (decide (k ∈ keys)); [by rewrite decide_True by set_solver|].
      by rewrite decide_False by set_solver.
Qed.

(** The loop neither adds nor removes a history state. *)
Lemma attachHistory_keys (boots persistents : list DatasetPtr)
    (users : gmap string (gmap string UserState))
    (history history' : gmap string State) (keys : list string) :
  attachHistory order boots persistents users history keys = Some history' →
  ∀ k, is_Some (history' !! k) ↔ is_Some (history !! k).
Proof.
  revert history. induction keys as [|k0 keys IH]; intros history; simpl.
  - by intros [= <-] k.
  - destruct (history !! k0) as [h|] eqn:Hh; [|done]. simpl.
    destruct (attachRemainingDatasetsForHistory order h boots persistents
                users) as [h'|]; [|done]. simpl.
    intros Hrec k. rewrite (IH _ Hrec k), lookup_insert_is_Some.
    destruct (decide (k0 = k)) as [<-|]; [|tauto].
    split; [by eexists | by left].
Qed.

Lemma NoDup_sortedKeys {V : Type} (m : gmap string V) : NoDup (sortedKeys m).
Proof.
  unfold sortedKeys. rewrite merge_sort_Permutation. apply NoDup_mapKeys.
Qed.

(** The history of a machine after the attachment: the same keys, each
    state attached to. *)
Lemma attachHistory_sorted_lookup (boots persistents : list DatasetPtr)
    (users : gmap string (gmap string UserState))
    (history history' : gmap string State) :
  attachHistory order boots persistents users history
    (sortedStateKeys history) = Some history' →
  ∀ k, history' !! k
       = history !! k ≫=
           (λ h, attachRemainingDatasetsForHistory order h boots persistents
                   users).
Proof.
  intros Hh k.
  rewrite (attachHistory_lookup _ _ _ _ _ _ (NoDup_sortedKeys history) Hh k).
  destruct (decide (k ∈ sortedKeys history)) as [|Hout]; [done|].
  rewrite elem_of_sortedKeys in Hout.
  apply eq_None_not_Some in Hout. by rewrite Hout.
Qed.

End AttachmentFacts.

(** X3: the boot datasets that [attachRemainingDatasets] appends to the
    system datasets of a machine are the boots, in their order, that are
    not snapshots and whose name ends with ["/"] and the last segment of
    the machine's id, or contains that segment between two ["/"]. *)
Theorem machine_boots_selection (order : MapOrder) (m : Machine)
    (boots persistents : list DatasetPtr)
    (userdatas : list (DatasetPtr * originAndChildren)) :
  let segment := lastSegment (Machine.ID m) in
  ∃ keep : zfs.Dataset → bool,
    (∀ m', attachRemainingDatasets order m boots persistents userdatas
             = Some m' →
           State.SystemDatasets (Machine.State m')
           = State.SystemDatasets (Machine.State m)
               ++ List.filter (λ b, keep (deref b)) boots)
    ∧ ∀ d, keep d = true ↔
           zfs.IsSnapshot d = false
           ∧ (isSuffixOf ("/" +:+ segment) (zfs.Name d)
              ∨ isSubstringOf ("/" +:+ segment +:+ "/") (zfs.Name d)).
Proof.
  intros segment.
  exists (λ d, negb (zfs.IsSnapshot d)
               && (HasSuffix (zfs.Name d) ("/" +:+ segment)
                   || Contains (zfs.Name d) ("/" +:+ segment +:+ "/"))).
  split.
  - intros m'. unfold attachRemainingDatasets.
    destruct (attachHistory _ _ _ _ _ _) as [history|]; [|done].
    intros [= <-]. simpl. by rewrite machineBoots_filter.
  - intros d.
    by rewrite andb_true_iff, negb_true_iff, orb_true_iff,
         HasSuffix_isSuffixOf, Contains_isSubstringOf.
Qed.

(** What [attachRemainingDatasets] leaves as it is. *)
Lemma attachRemainingDatasets_frame (order : MapOrder) (m m' : Machine)
    (boots persistents : list DatasetPtr)
    (userdatas : list (DatasetPtr * originAndChildren)) :
  attachRemainingDatasets order m boots persistents userdatas = Some m' →
  attachedTo (Machine.State m) (Machine.State m')
  ∧ State.PersistentDatasets (Machine.State m') = persistents
  ∧ Machine.Users m' = ∅
  ∧ (∀ k, is_Some (Machine.History m' !! k)
          ↔ is_Some (Machine.History m !! k))
  ∧ ∀ k h h',
      Machine.History m !! k = Some h → Machine.History m' !! k = Some h' →
      attachedTo h h' ∧ State.PersistentDatasets h' = persistents.
Proof.
  unfold attachRemainingDatasets.
  destruct (attachHistory _ _ _ _ _ _) as [history|] eqn:Hh; [|done].
  intros [= <-]. simpl.
  pose proof (attachHistory_sorted_lookup order _ _ _ _ _ Hh) as Hlook.
  split_and!; [| done | done | |].
  - unfold attachedTo. simpl. split_and!; try done; by eexists.
  - intros k. by eapply attachHistory_keys.
  - intros k h h' Hk Hk'. rewrite Hlook, Hk in Hk'. simpl in Hk'.
    by eapply attachRemainingDatasetsForHistory_attachedTo.
Qed.

(** X4: when [attachRemainingDatasets] completes, the machine keeps its
    id, zsys flag and last-used time and the datasets it had, its
    [Users] map is empty, and its history has the same keys, each state
    keeping its id, flag, time and the datasets it had; the machine and
    every one of its history states have the given persistent datasets. *)
Theorem attachment_keeps_states (order : MapOrder) (m m' : Machine)
    (boots persistents : list DatasetPtr)
    (userdatas : list (DatasetPtr * originAndChildren)) :
  attachRemainingDatasets order m boots persistents userdatas = Some m' →
  attachedTo (Machine.State m) (Machine.State m')
  ∧ State.PersistentDatasets (Machine.State m') = persistents
  ∧ Machine.Users m' = ∅
  ∧ (∀ k, is_Some (Machine.History m' !! k)
          ↔ is_Some (Machine.History m !! k))
  ∧ ∀ k h h',
      Machine.History m !! k = Some h → Machine.History m' !! k = Some h' →
      attachedTo h h' ∧ State.PersistentDatasets h' = persistents.
Proof. apply attachRemainingDatasets_frame. Qed.

(** The machine of the example inventory, attached to: it keeps its two
    history states. *)
Lemma attachment_keeps_states_witness :
  ∃ m',
    attachRemainingDatasets Examples.ascending Scenarios.triagedU1
      [Scenarios.bootPtr] [Scenarios.srvPtr] Examples.homes = Some m'
    ∧ State.PersistentDatasets (Machine.State m') = [Scenarios.srvPtr]
    ∧ Machine.Users m' = ∅
    ∧ is_Some (Machine.History m' !! "rpool/ROOT/u2").
Proof.
  eexists. split; [vm_compute; reflexivity|].
  destruct (attachment_keeps_states Examples.ascending Scenarios.triagedU1 _
              [Scenarios.bootPtr] [Scenarios.srvPtr] Examples.homes
              ltac:(vm_compute; reflexivity))
    as (_ & Hp & Hu & Hk & _).
  split_and!; [exact Hp | exact Hu |].
  apply Hk. vm_compute. by eexists.
Defined.

(** ** The slots of the users map *)

Lemma Itoa_not_current (i : Z) : Itoa i ≠ "current".
Proof.
  unfold Itoa. destruct (Z.to_int i) as [d|d]; [|done].
  by destruct d.
Qed.

(** X5: in the users map built for a machine, the state of the ["current"]
    slot of a user was made from an entry whose root has the address of one
    of the machine's [userRootDatasets]; the state of any other slot was
    made from an entry whose root is none of them, and the slot is the
    decimal [LastUsed] of that root, which is never the text
    ["current"]. *)
Theorem current_slot_holds_machine_root (order : MapOrder) (id : string)
    (userdatas : list (DatasetPtr * originAndChildren))
    (user timestamp : string) (userState : UserState) :
  let roots := userRootDatasetsOf order id userdatas in
  userStateAt (buildUsers order id userdatas ∅) user timestamp
    = Some userState →
  ∃ r dprop,
    (r, dprop) ∈ userdatas
    ∧ userState = userStateOf r dprop
    ∧ user = userOf r
    ∧ ((timestamp = "current" ∧ ∃ u, u ∈ roots ∧ addr r = addr u)
       ∨ (timestamp ≠ "current"
          ∧ timestamp = Itoa (zfs.LastUsed (deref r))
          ∧ ∀ u, u ∈ roots → addr r ≠ addr u)).
Proof.
  intros roots Hat.
  pose proof (fold_addUser_slot userdatas roots
                (rangeOrder (λ e, userdatasOrder order id (addr e.1))
                   userdatas) user timestamp) as Hslot.
  change (fold_left _ _ ∅) with (buildUsers order id userdatas ∅) in Hslot.
  rewrite Hat in Hslot.
  destruct Hslot as (pre & [r dprop] & post & Hv & (_ & Hu & Ht) & -> & _).
  exists r, dprop. split_and!; [| done | done |].
  - rewrite <- (rangeOrder_Permutation
                  (λ e, userdatasOrder order id (addr e.1)) userdatas), Hv.
    set_solver.
  - simpl in Ht. unfold timestampOf, isCurrent in Ht.
    destruct (existsb _ roots) eqn:Hex.
    + left. split; [done|].
      apply existsb_exists in Hex as (u & Hin & Heq).
      exists u. split; [by apply list_elem_of_In | by apply ptrEq_addr].
    + right. subst timestamp. split_and!; [apply Itoa_not_current | done |].
      intros u Hin Haddr.
      assert (existsb (λ u, ptrEq r u) roots = true) as Habs; [|congruence].
      apply existsb_exists. exists u.
      split; [by apply list_elem_of_In | by apply ptrEq_addr].
Qed.

(** Alice's home is linked to the machine: it is her current state. *)
Lemma current_slot_holds_machine_root_witness :
  ∃ userState r dprop,
    userStateAt Scenarios.aliceUsers "alice" "current" = Some userState
    ∧ (r, dprop) ∈ Scenarios.aliceWithSnapshot
    ∧ userState = userStateOf r dprop
    ∧ zfs.Name (deref r) = "rpool/USERDATA/alice_abcd".
Proof.
  eexists.
  destruct (current_slot_holds_machine_root Examples.ascending
              "rpool/ROOT/u1" Scenarios.aliceWithSnapshot "alice" "current" _
              ltac:(vm_compute; reflexivity))
    as (r & dprop & Hin & Hus & _).
  exists r, dprop. split_and!; [vm_compute; reflexivity | done | done |].
  apply (f_equal (λ us, head (UserState.Datasets us))) in Hus.
  cbn in Hus. by injection Hus as <-.
Defined.

(** ** The user datasets of a history state *)

Section HistoryUsersFacts.
Variable order : MapOrder.

Lemma elem_of_userStatesOf_iff (id user : string)
    (users : gmap string (gmap string UserState)) (userState : UserState) :
  userState ∈ userStatesOf order id user users ↔
  ∃ timestamp, userStateAt users user timestamp = Some userState.
Proof.
  split; [apply elem_of_userStatesOf|].
  unfold userStatesOf, userStateAt. intros [timestamp Hat].
  destruct (users !! user) as [states|]; [|done]. simpl in *.
  apply list_elem_of_omap. exists timestamp. split; [|done].
  apply elem_of_rangeOrder, elem_of_mapKeys. eauto.
Qed.

Lemma snapshotUserDatasets_elem (snapshot : string)
    (userStates : list UserState) (ds : list DatasetPtr) :
  snapshotUserDatasets snapshot userStates = Some ds →
  ∀ d, d ∈ ds ↔
       ∃ userState d0 rest,
         userState ∈ userStates
         ∧ UserState.Datasets userState = d0 :: rest
         ∧ zfs.IsSnapshot (deref d0) = true
         ∧ UserState.ID userState = snapshot
         ∧ d ∈ UserState.Datasets userState.
Proof.
  revert ds. induction userStates as [|us l IH]; intros ds; simpl.
  - intros [= <-] d. split; [by intros ?%elem_of_nil|].
    by intros (? & ? & ? & ?%elem_of_nil & _).
  - destruct (UserState.Datasets us) as [|d0 rest] eqn:Hds; [done|].
    destruct (snapshotUserDatasets snapshot l) as [tail|]; [|done]. simpl.
    specialize (IH tail eq_refl).
    assert (∀ d, d ∈ tail →
              ∃ userState d1 rest1,
                userState ∈ us :: l
                ∧ UserState.Datasets userState = d1 :: rest1
                ∧ zfs.IsSnapshot (deref d1) = true
                ∧ UserState.ID userState = snapshot
                ∧ d ∈ UserState.Datasets userState) as Htail.
    { intros d (u & d1 & r1 & ? & ?)%IH. exists u, d1, r1.
      split; [by right | done]. }
    destruct (zfs.IsSnapshot (deref d0)) eqn:Hsnap; simpl.
    + destruct (String.eqb_spec (UserState.ID us) snapshot) as [Hid|Hid];
        intros [= <-] d.
      * change (d0 :: rest ++ tail) with ((d0 :: rest) ++ tail).
        rewrite elem_of_app. split.
        -- intros [Hd | Hd]; [|by apply Htail].
           exists us, d0, rest. rewrite Hds. by split_and!; [left|..].
        -- intros (u & d1 & r1 & [-> | Hu]%elem_of_cons & Hu1 & ? & ? & Hd).
           ++ left. by rewrite Hds in Hd.
           ++ right. apply IH. by exists u, d1, r1.
      * split; [by apply Htail|].
        intros (u & d1 & r1 & [-> | Hu]%elem_of_cons & Hu1 & ? & ? & Hd);
          [done|]. apply IH. by exists u, d1, r1.
    + intros [= <-] d. split; [by apply Htail|].
      intros (u & d1 & r1 & [-> | Hu]%elem_of_cons & Hu1 & ? & ? & Hd).
      * rewrite Hds in Hu1. injection Hu1 as <- _. congruence.
      * apply IH. by exists u, d1, r1.
Qed.

Lemma cloneUserDatasets_elem (id : string) (userStates : list UserState)
    (ds : list DatasetPtr) :
  cloneUserDatasets id userStates = Some ds →
  ds = []
  ∨ ∃ userState d0 rest,
      userState ∈ userStates
      ∧ UserState.Datasets userState = d0 :: rest
      ∧ zfs.IsSnapshot (deref d0) = false
      ∧ ds = promoted id userState.
Proof.
  induction userStates as [|us l IH]; simpl.
  - intros [= <-]. by left.
  - destruct (UserState.Datasets us) as [|d0 rest] eqn:Hds; [done|].
    assert (cloneUserDatasets id l = Some ds →
            ds = []
            ∨ ∃ userState d1 rest1,
                userState ∈ us :: l
                ∧ UserState.Datasets userState = d1 :: rest1
                ∧ zfs.IsSnapshot (deref d1) = false
                ∧ ds = promoted id userState) as Hrec.
    { intros [-> | (u & d1 & r1 & ? & ?)]%IH; [by left | right].
      exists u, d1, r1. split; [by right | done]. }
    destruct (zfs.IsSnapshot (deref d0)) eqn:Hsnap; [done|].
    destruct (promoted id us) as [|p ps] eqn:Hp; [done|].
    intros [= <-]. right. exists us, d0, rest.
    by split_and!; [left|..].
Qed.

Lemma historyUserDatasets_elem (id snapshot : string)
    (users : gmap string (gmap string UserState)) (keys : list string)
    (ds : list DatasetPtr) :
  historyUserDatasets order id snapshot users keys = Some ds →
  ∀ d, d ∈ ds ↔
       ∃ user dsUser,
         user ∈ keys
         ∧ (if negb (String.eqb snapshot "")
            then snapshotUserDatasets snapshot
                   (userStatesOf order id user users)
            else cloneUserDatasets id (userStatesOf order id user users))
           = Some dsUser
         ∧ d ∈ dsUser.
Proof.
  revert ds. induction keys as [|user keys IH]; intros ds; simpl.
  - intros [= <-] d. split; [by intros ?%elem_of_nil|].
    by intros (? & ? & ?%elem_of_nil & _).
  - destruct (if negb (String.eqb snapshot "") then _ else _) as [dsU|] eqn:HU;
      [|done]. simpl.
    destruct (historyUserDatasets order id snapshot users keys) as [rest|];
      [|done]. simpl. intros [= <-] d.
    rewrite elem_of_app, (IH rest eq_refl d). split.
    + intros [Hd | (u & dsu & ? & ? & ?)].
      * exists user, dsU. by split_and!; [left|..].
      * exists u, dsu. by split_and!; [right|..].
    + intros (u & dsu & [-> | Hu]%elem_of_cons & Hdsu & Hd).
      * left. congruence.
      * right. by exists u, dsu.
Qed.

Lemma historyUserDatasets_user (id snapshot : string)
    (users : gmap string (gmap string UserState)) (keys : list string)
    (ds : list DatasetPtr) (user : string) :
  historyUserDatasets order id snapshot users keys = Some ds →
  user ∈ keys →
  is_Some (if negb (String.eqb snapshot "")
           then snapshotUserDatasets snapshot
                  (userStatesOf order id user users)
           else cloneUserDatasets id (userStatesOf order id user users)).
Proof.
  revert ds. induction keys as [|u keys IH]; intros ds Hds Hin;
    [by apply elem_of_nil in Hin|].
  simpl in Hds.
  destruct (if negb (String.eqb snapshot "")
            then snapshotUserDatasets snapshot (userStatesOf order id u users)
            else cloneUserDatasets id (userStatesOf order id u users))
    as [dsU|] eqn:HU; [|done]. simpl in Hds.
  destruct (historyUserDatasets order id snapshot users keys) as [rest|];
    [|done].
  apply elem_of_cons in Hin as [-> | Hin]; [by rewrite HU | by eapply IH].
Qed.

End HistoryUsersFacts.

(** X6: for a history state whose last id segment carries the snapshot tag
    [snap], the user datasets that [attachRemainingDatasetsForHistory]
    appends are the datasets of the user states, of any user and slot,
    whose first dataset is a snapshot and whose id is [snap]. *)
Theorem snapshot_history_user_datasets (order : MapOrder) (h h' : State)
    (boots persistents : list DatasetPtr)
    (users : gmap string (gmap string UserState)) (snap : string) :
  attachRemainingDatasetsForHistory order h boots persistents users = Some h' →
  hasTag (lastSegment (State.ID h)) snap →
  ∃ userDatasets,
    State.UserDatasets h' = State.UserDatasets h ++ userDatasets
    ∧ ∀ d, d ∈ userDatasets ↔
           ∃ user timestamp userState d0 rest,
             userStateAt users user timestamp = Some userState
             ∧ UserState.Datasets userState = d0 :: rest
             ∧ zfs.IsSnapshot (deref d0) = true
             ∧ UserState.ID userState = snap
             ∧ d ∈ UserState.Datasets userState.
Proof.
  unfold attachRemainingDatasetsForHistory. intros Hatt Htag.
  rewrite (snapshotOf_hasTag _ _ Htag) in Hatt.
  destruct (historyUserDatasets _ _ _ _ _) as [uds|] eqn:Huds; [|done].
  injection Hatt as <-. exists uds. split; [done|]. intros d.
  rewrite (historyUserDatasets_elem _ _ _ _ _ _ Huds d).
  assert (negb (String.eqb snap "") = true) as Hneg.
  { apply negb_true_iff, String.eqb_neq.
    by destruct Htag as (? & _ & _ & ? & _). }
  rewrite Hneg. split.
  - intros (user & dsu & _ & Hsnap & Hd).
    apply (snapshotUserDatasets_elem _ _ _ Hsnap) in Hd
      as (us & d0 & rest & [ts Hts]%elem_of_userStatesOf & ?).
    by exists user, ts, us, d0, rest.
  - intros (user & ts & us & d0 & rest & Hat & Hds & Hs & Hid & Hd).
    assert (is_Some (users !! user)) as Huser.
    { unfold userStateAt in Hat. by destruct (users !! user). }
    assert (user ∈ rangeOrder (historyUsersOrder order (State.ID h))
                      (mapKeys users)) as Hin
      by (by apply elem_of_rangeOrder, elem_of_mapKeys).
    destruct (historyUserDatasets_user _ _ _ _ _ _ _ Huds Hin) as [dsu Hdsu].
    rewrite Hneg in Hdsu.
    exists user, dsu. split_and!; [done | done |].
    apply (snapshotUserDatasets_elem _ _ _ Hdsu).
      exists us, d0, rest. split_and!; [|done..].
      apply elem_of_userStatesOf_iff. eauto.
Qed.

(** The snapshot of the root takes the snapshot of alice's home that
    carries the same tag. *)
Lemma snapshot_history_user_datasets_witness :
  ∃ h' userDatasets,
    attachRemainingDatasetsForHistory Examples.ascending
      Scenarios.snapshotState [] [] Scenarios.aliceUsers = Some h'
    ∧ State.UserDatasets h' = [Scenarios.aliceSnap]
    ∧ State.UserDatasets h'
      = State.UserDatasets Scenarios.snapshotState ++ userDatasets
    ∧ ∀ d, d ∈ userDatasets ↔
           ∃ user timestamp userState d0 rest,
             userStateAt Scenarios.aliceUsers user timestamp = Some userState
             ∧ UserState.Datasets userState = d0 :: rest
             ∧ zfs.IsSnapshot (deref d0) = true
             ∧ UserState.ID userState = "snap"
             ∧ d ∈ UserState.Datasets userState.
Proof.
  eexists.
  destruct (snapshot_history_user_datasets Examples.ascending
              Scenarios.snapshotState _ [] [] Scenarios.aliceUsers "snap"
              ltac:(vm_compute; reflexivity)) as (uds & Huds & Helem).
  - exists "u1". split_and!; [done..|].
    intros Hsub%Contains_isSubstringOf. vm_compute in Hsub. done.
  - exists uds. split_and!; [vm_compute; reflexivity | reflexivity | done..].
Defined.

(** X7: for a history state whose last id segment carries no snapshot tag,
    every user dataset that [attachRemainingDatasetsForHistory] appends
    belongs to a user state whose first dataset is not a snapshot, and is
    linked to the state: an element of its [BootfsDatasets] is the state's
    id, or the unsplit string begins with the id followed by ["/"]. *)
Theorem clone_history_user_datasets (order : MapOrder) (h h' : State)
    (boots persistents : list DatasetPtr)
    (users : gmap string (gmap string UserState)) :
  attachRemainingDatasetsForHistory order h boots persistents users = Some h' →
  (∀ snap, ¬ hasTag (lastSegment (State.ID h)) snap) →
  ∃ userDatasets,
    State.UserDatasets h' = State.UserDatasets h ++ userDatasets
    ∧ ∀ d, d ∈ userDatasets →
           ∃ user timestamp userState d0 rest,
             userStateAt users user timestamp = Some userState
             ∧ UserState.Datasets userState = d0 :: rest
             ∧ zfs.IsSnapshot (deref d0) = false
             ∧ d ∈ UserState.Datasets userState
             ∧ linked (zfs.BootfsDatasets (deref d)) (State.ID h).
Proof.
  unfold attachRemainingDatasetsForHistory. intros Hatt Hno.
  rewrite (snapshotOf_untagged _ Hno) in Hatt.
  destruct (historyUserDatasets _ _ _ _ _) as [uds|] eqn:Huds; [|done].
  injection Hatt as <-. exists uds. split; [done|]. intros d Hd.
  apply (historyUserDatasets_elem _ _ _ _ _ _ Huds) in Hd
    as (user & dsu & _ & Hclone & Hd).
  rewrite String.eqb_refl in Hclone. cbn [negb] in Hclone.
  apply cloneUserDatasets_elem in Hclone
    as [-> | (us & d0 & rest & [ts Hts]%elem_of_userStatesOf & ? & ? & ->)];
    [by apply elem_of_nil in Hd|].
  apply elem_of_promoted in Hd as [? ?].
  by exists user, ts, us, d0, rest.
Qed.

(** Carol's home is linked to the machine and to its clone: the clone
    takes it. *)
Lemma clone_history_user_datasets_witness :
  ∃ h' userDatasets,
    attachRemainingDatasetsForHistory Examples.ascending
      Scenarios.cloneState [] [] Scenarios.carolUsers = Some h'
    ∧ State.UserDatasets h' = [Scenarios.carolHome]
    ∧ State.UserDatasets h'
      = State.UserDatasets Scenarios.cloneState ++ userDatasets
    ∧ ∀ d, d ∈ userDatasets →
           ∃ user timestamp userState d0 rest,
             userStateAt Scenarios.carolUsers user timestamp = Some userState
             ∧ UserState.Datasets userState = d0 :: rest
             ∧ zfs.IsSnapshot (deref d0) = false
             ∧ d ∈ UserState.Datasets userState
             ∧ linked (zfs.BootfsDatasets (deref d))
                 (State.ID Scenarios.cloneState).
Proof.
  eexists.
  destruct (clone_history_user_datasets Examples.ascending
              Scenarios.cloneState _ [] [] Scenarios.carolUsers
              ltac:(vm_compute; reflexivity)) as (uds & Huds & Helem).
  - intros snap Htag. pose proof (snapshotOf_hasTag _ _ Htag) as Hs.
    vm_compute in Hs. destruct Htag as (? & _ & _ & Hne & _). congruence.
  - exists uds. split_and!; [vm_compute; reflexivity | reflexivity | done..].
Defined.

(** ** A whole pass *)

Section PassFacts.
Context {helpers : Helpers}.
Variable order : MapOrder.

Lemma takes_Users (d : DatasetPtr) (origin : option string) (m m' : Machine) :
  takes d origin m m' → Machine.Users m' = Machine.Users m.
Proof. by destruct 1. Qed.

(** The triage does not write to the users map of a machine. *)
Lemma triageFrom_users_empty (origins : string → option string) (t : Triage)
    (ds : list DatasetPtr) :
  (∀ k m, all t !! k = Some m → Machine.Users m = ∅) →
  ∀ k m, all (triageFrom order origins t ds) !! k = Some m →
         Machine.Users m = ∅.
Proof.
  intros Ht. induction ds as [|d ds IH] using rev_ind; [done|].
  intros k m. rewrite triageFrom_snoc, triageDataset_all.
  destruct (newMachineFromDataset d _) as [m0|] eqn:Hnew.
  - apply newMachineFromDataset_Some in Hnew as [_ ->].
    destruct (decide (zfs.Name (deref d) = k)) as [<-|];
      [rewrite lookup_insert_eq; by intros [= <-]|].
    rewrite lookup_insert_ne by done. apply IH.
  - destruct (attachSystemAndHistory_spec order d
                (origins (zfs.Name (deref d)))
                (all (triageFrom order origins t ds)))
      as [[-> _] | (pre & k0 & post & m0 & m0' & _ & Hk0 & Ht0 & -> & _)];
      simpl; [apply IH|].
    destruct (decide (k0 = k)) as [<-|].
    + rewrite lookup_insert_eq. intros [= <-].
      rewrite (takes_Users _ _ _ _ Ht0). by eapply IH.
    + rewrite lookup_insert_ne by done. apply IH.
Qed.

Lemma attachRemainingDatasets_is_Some (m : Machine)
    (boots persistents : list DatasetPtr)
    (userdatas : list (DatasetPtr * originAndChildren)) :
  Machine.Users m = ∅ →
  is_Some (attachRemainingDatasets order m boots persistents userdatas).
Proof.
  intros Hempty. unfold attachRemainingDatasets. rewrite Hempty.
  destruct (attachHistory_is_Some order boots persistents
              (buildUsers order (Machine.ID m) userdatas ∅)
              (Machine.History m) (sortedStateKeys (Machine.History m)))
    as [history ->]; [apply buildUsers_usersNonEmpty | | done].
  intros k. apply elem_of_sortedKeys.
Qed.

Lemma historySystemDatasets_elem (history : gmap string State)
    (keys : list string) :
  (∀ k, k ∈ keys → is_Some (history !! k)) →
  ∃ ds, historySystemDatasets history keys = Some ds
        ∧ ∀ d, d ∈ ds ↔
               ∃ k h, k ∈ keys ∧ history !! k = Some h
                      ∧ d ∈ State.SystemDatasets h.
Proof.
  induction keys as [|k0 keys IH]; intros Hkeys; simpl.
  - exists []. split; [done|]. intros d.
    split; [by intros ?%elem_of_nil | by intros (? & ? & ?%elem_of_nil & _)].
  - destruct (Hkeys k0) as [h0 Hh0]; [set_solver|].
    destruct IH as (rest & Hrest & Helem); [intros; apply Hkeys; set_solver|].
    rewrite Hh0, Hrest. simpl. eexists. split; [done|]. intros d.
    rewrite elem_of_app, Helem. split.
    + intros [? | (k & h & ? & ? & ?)].
      * exists k0, h0. by split_and!; [left|..].
      * exists k, h. by split_and!; [right|..].
    + intros (k & h & [-> | ?]%elem_of_cons & Hk & ?).
      * left. congruence.
      * right. by exists k, h.
Qed.

Lemma attachMachines_is_Some (boots persistents : list DatasetPtr)
    (userdatas : list (DatasetPtr * originAndChildren))
    (machines : gmap string Machine) (flat : list DatasetPtr)
    (keys : list string) :
  (∀ k, k ∈ keys → ∃ m, machines !! k = Some m ∧ Machine.Users m = ∅) →
  is_Some (attachMachines order boots persistents userdatas machines flat
             keys).
Proof.
  revert machines flat.
  induction keys as [|k0 keys IH]; intros machines flat Hkeys; simpl;
    [done|].
  destruct (Hkeys k0) as (m & Hm & Hu); [set_solver|]. rewrite Hm. simpl.
  destruct (attachRemainingDatasets_is_Some m boots persistents userdatas Hu)
    as [m' Hm'].
  rewrite Hm'. simpl.
  destruct (historySystemDatasets_elem (Machine.History m')
              (sortedStateKeys (Machine.History m')))
    as (hs & -> & _); [intros k; apply elem_of_sortedKeys|].
  simpl. apply IH. intros k Hk.
  destruct (decide (k0 = k)) as [<-|].
  - exists m'. rewrite lookup_insert_eq. split; [done|].
    by destruct (attachRemainingDatasets_frame _ _ _ _ _ _ Hm')
      as (_ & _ & ? & _).
  - rewrite lookup_insert_ne by done. apply Hkeys. set_solver.
Qed.

(** The loop of lines 191-201 attaches to each machine once, and the flat
    list gains the system datasets of the machines it visits and of their
    history states. *)
Lemma attachMachines_spec (boots persistents : list DatasetPtr)
    (userdatas : list (DatasetPtr * originAndChildren))
    (machines machines' : gmap string Machine)
    (flat flat' : list DatasetPtr) (keys : list string) :
  NoDup keys →
  attachMachines order boots persistents userdatas machines flat keys
    = Some (machines', flat') →
  (∀ k, machines' !! k
        = if decide (k ∈ keys)
          then machines !! k ≫=
                 (λ m, attachRemainingDatasets order m boots persistents
                         userdatas)
          else machines !! k)
  ∧ ∀ d, d ∈ flat' ↔
         d ∈ flat
         ∨ ∃ k m, k ∈ keys ∧ machines' !! k = Some m
                  ∧ (d ∈ State.SystemDatasets (Machine.State m)
                     ∨ ∃ n h, Machine.History m !! n = Some h
                              ∧ d ∈ State.SystemDatasets h).
Proof.
  intros Hnd. revert machines flat.
  induction Hnd as [|k0 keys Hk0 Hnd IH]; intros machines flat; simpl.
  - intros [= <- <-]. split; [done|]. intros d.
    split; [by left | intros [? | (? & ? & ?%elem_of_nil & _)]; done].
  - destruct (machines !! k0) as [m|] eqn:Hm; [|done]. simpl.
    destruct (attachRemainingDatasets order m boots persistents userdatas)
      as [m'|] eqn:Hm'; [|done]. simpl.
    destruct (historySystemDatasets_elem (Machine.History m')
                (sortedStateKeys (Machine.History m')))
      as (hs & Hhs & Hhselem); [intros k; apply elem_of_sortedKeys|].
    rewrite Hhs. simpl. intros Hrec.
    destruct (IH _ _ Hrec) as [Hlook Hflat].
    assert (machines' !! k0 = Some m') as Hk0'.
    { rewrite Hlook, decide_False by done. apply lookup_insert_eq. }
    split.
    + intros k. rewrite Hlook. destruct (decide (k = k0)) as [->|Hne].
      * rewrite decide_False, decide_True by set_solver.
        by rewrite lookup_insert_eq, Hm.
      * rewrite lookup_insert_ne by done.
        destruct (decide (k ∈ keys));
          [by rewrite decide_True by set_solver|].
        by rewrite decide_False by set_solver.
    + intros d. rewrite Hflat, !elem_of_app, Hhselem. split.
      * intros [[[? | ?] | (n & h & Hn & Hh & ?)] | (k & mk & ? & ? & ?)].
        -- by left.
        -- right. exists k0, m'. split_and!; [by left | done | by left].
        -- right. exists k0, m'. split_and!; [by left | done |].
           right. by exists n, h.
        -- right. exists k, mk. by split_and!; [right|..].
      * intros [? | (k & mk & [-> | ?]%elem_of_cons & Hk & Hd)].
        -- by left; left; left.
        -- rewrite Hk0' in Hk. injection Hk as <-. left.
           destruct Hd as [? | (n & h & Hh & ?)]; [by left; right|].
           right. exists n, h. split_and!; [|done..].
           apply elem_of_sortedKeys. eauto.
        -- right. by exists k, mk.
Qed.

End PassFacts.

Section RefreshFacts.
Context {helpers : Helpers}.
Variable order : MapOrder.

Lemma triageOf_users_empty (zfsState : Zfs) (k : string) (m : Machine) :
  all (triageOf order zfsState ∅) !! k = Some m → Machine.Users m = ∅.
Proof.
  unfold triageOf, triageDatasets. apply triageFrom_users_empty.
  intros ? ?. simpl. by rewrite lookup_empty.
Qed.

Lemma triageOf_ids (zfsState : Zfs) (k : string) (m : Machine) :
  all (triageOf order zfsState ∅) !! k = Some m →
  Machine.ID m = k
  ∧ ∀ n h, Machine.History m !! n = Some h → State.ID h = n.
Proof.
  unfold triageOf. intros Hm.
  match type of Hm with
  | all (triageDatasets _ _ ?ds ?origins) !! _ = _ =>
      assert (machinesMadeFrom ([] ++ addressed ds)
                (all (triageDatasets order ∅ ds origins))) as Hinv
  end.
  { apply triageFrom_machinesMadeFrom. intros ? ?. simpl.
    by rewrite lookup_empty. }
  destruct (Hinv k m Hm) as (? & _ & Hh). split; [done|].
  intros n h Hn. by destruct (Hh n h Hn).
Qed.

(** The parts of a [refresh] that completes on a fresh value. *)
Lemma refresh_Some (heap : gmap nat Zfs) (cmdline : string) (z : nat)
    (machines' : Machines) (err : option error) :
  refresh order heap (emptyMachines cmdline z) = Some (machines', err) →
  ∃ zfsState uds machinesAll flat,
    heap !! z = Some zfsState
    ∧ attachMachines order (boots (triageOf order zfsState ∅))
        (persistents (triageOf order zfsState ∅)) uds
        (all (triageOf order zfsState ∅)) []
        (sortedMachineKeys (all (triageOf order zfsState ∅)))
      = Some (machinesAll, flat)
    ∧ machines'
      = Machines.mk machinesAll cmdline
          (findFromRoot machinesAll (bootParametersFromCmdline cmdline).1)
          None
          (appendIfNotPresent flat (boots (triageOf order zfsState ∅)) true)
          (mountableUserDatasets (userdatas (triageOf order zfsState ∅)))
          z
    ∧ err = None.
Proof.
  unfold refresh. simpl. intros Hr.
  destruct (heap !! z) as [zfsState|]; [|done]. simpl in Hr.
  destruct (withOrigins _ _) as [uds|]; [|done]. simpl in Hr.
  destruct (attachMachines _ _ _ _ _ _ _) as [[machinesAll flat]|] eqn:Hatt;
    [|done].
  simpl in Hr. injection Hr as <- <-.
  by exists zfsState, uds, machinesAll, flat.
Qed.

(** The machines after the attachment loop over the sorted keys. *)
Lemma attachMachines_sorted_lookup (boots persistents : list DatasetPtr)
    (uds : list (DatasetPtr * originAndChildren))
    (machines machines' : gmap string Machine) (flat' : list DatasetPtr) :
  attachMachines order boots persistents uds machines []
    (sortedMachineKeys machines) = Some (machines', flat') →
  (∀ k, machines' !! k
        = machines !! k ≫=
            (λ m, attachRemainingDatasets order m boots persistents uds))
  ∧ ∀ d, d ∈ flat' ↔
         ∃ k m, machines' !! k = Some m
                ∧ (d ∈ State.SystemDatasets (Machine.State m)
                   ∨ ∃ n h, Machine.History m !! n = Some h
                            ∧ d ∈ State.SystemDatasets h).
Proof.
  intros Hatt.
  destruct (attachMachines_spec order _ _ _ _ _ _ _ _
              (NoDup_sortedKeys machines) Hatt) as [Hlook Hflat].
  assert (∀ k, machines' !! k
               = machines !! k ≫=
                   (λ m, attachRemainingDatasets order m boots persistents
                           uds)) as Hlook'.
  { intros k. rewrite Hlook.
    destruct (decide (k ∈ sortedKeys machines)) as [|Hout]; [done|].
    rewrite elem_of_sortedKeys in Hout.
    apply eq_None_not_Some in Hout. by rewrite Hout. }
  split; [done|]. intros d. rewrite Hflat. split.
  - intros [?%elem_of_nil | (k & m & _ & ? & ?)]; [done|]. by exists k, m.
  - intros (k & m & Hk & ?). right. exists k, m. split_and!; [|done..].
    apply elem_of_sortedKeys. rewrite Hlook' in Hk.
    apply bind_Some in Hk as (m0 & ? & _). eauto.
Qed.

End RefreshFacts.

(** X8: on the fresh value that [New] and [Refresh] build, [refresh]
    completes iff the adapter is allocated and the resolver has an origin
    for the name of every root user dataset; the dereference of line 183 is
    the only place where it can fail. *)
Theorem refresh_completes_iff_roots_resolved {helpers : Helpers}
    (order : MapOrder) (heap : gmap nat Zfs) (cmdline : string) (z : nat) :
  is_Some (refresh order heap (emptyMachines cmdline z)) ↔
  ∃ zfsState,
    heap !! z = Some zfsState
    ∧ let roots :=
        getRootDatasets (userdatas (triageOf order zfsState ∅)) in
      ∀ e, e ∈ roots →
           is_Some (resolveOrigin
                      (rangeOrder (λ k, rootsOrder order (addr k)) roots.*1)
                      "" (zfs.Name (deref e.1))).
Proof.
  unfold refresh. simpl. destruct (heap !! z) as [zfsState|]; simpl.
  - split.
    + intros Hsome. exists zfsState. split; [done|].
      set (roots := getRootDatasets (userdatas (triageOf order zfsState ∅)))
        in *.
      intros e He.
      destruct (withOrigins _ _) as [uds|] eqn:Huds;
        [|by destruct Hsome].
      assert (is_Some (withOrigins
                (resolveOrigin
                   (rangeOrder (λ k, rootsOrder order (addr k)) roots.*1) "")
                roots)) as Hall by (by rewrite Huds).
      unfold withOrigins in Hall. rewrite mapM_is_Some, Forall_forall in Hall.
      specialize (Hall e He). simpl in Hall.
      destruct (resolveOrigin _ _ _); [done | by destruct Hall].
    + intros (zs & [= <-] & Hroots).
      destruct (withOrigins _ _) as [uds|] eqn:Huds.
      * simpl.
        destruct (attachMachines_is_Some order
                    (boots (triageOf order zfsState ∅))
                    (persistents (triageOf order zfsState ∅)) uds
                    (all (triageOf order zfsState ∅)) []
                    (sortedMachineKeys (all (triageOf order zfsState ∅))))
          as [attached ->]; [|done].
        intros k [m Hm]%elem_of_sortedKeys. exists m. split; [done|].
        by eapply triageOf_users_empty.
      * exfalso. apply eq_None_not_Some in Huds. apply Huds.
        unfold withOrigins. apply mapM_is_Some, Forall_forall.
        intros e He. simpl. destruct (Hroots e He) as [o ->]. done.
  - split; [by intros [? ?] | by intros (? & ? & _)].
Qed.

(** X9: when [refresh] completes on a fresh value it returns no error, and
    the command line and the adapter are those of the value.  The machines
    are those of the triage, under the same keys: each is stored under its
    id, each of its history states under the state's id, and its [Users]
    map is empty. *)
Theorem refreshed_machines_keyed_by_id {helpers : Helpers} (order : MapOrder)
    (heap : gmap nat Zfs) (cmdline : string) (z : nat)
    (machines' : Machines) (err : option error) :
  refresh order heap (emptyMachines cmdline z) = Some (machines', err) →
  err = None
  ∧ Machines.cmdline machines' = cmdline
  ∧ Machines.z machines' = z
  ∧ ∃ zfsState,
      heap !! z = Some zfsState
      ∧ (∀ k, is_Some (Machines.all machines' !! k)
              ↔ is_Some (all (triageOf order zfsState ∅) !! k))
      ∧ ∀ k m, Machines.all machines' !! k = Some m →
               Machine.ID m = k
               ∧ Machine.Users m = ∅
               ∧ ∀ n h, Machine.History m !! n = Some h → State.ID h = n.
Proof.
  intros (zfsState & uds & machinesAll & flat & Hz & Hatt & -> & ->)
    %refresh_Some.
  split_and!; [done..|]. exists zfsState. split; [done|]. simpl.
  destruct (attachMachines_sorted_lookup order _ _ _ _ _ _ Hatt)
    as [Hlook _].
  split.
  - intros k. rewrite Hlook. split.
    + intros [m' (m & ? & _)%bind_Some]. eauto.
    + intros [m Hm]. rewrite Hm. simpl.
      apply attachRemainingDatasets_is_Some.
      by eapply triageOf_users_empty.
  - intros k m'. rewrite Hlook. intros (m & Hm & Hm')%bind_Some.
    destruct (triageOf_ids order zfsState k m Hm) as [Hid Hhist].
    destruct (attachRemainingDatasets_frame _ _ _ _ _ _ Hm')
      as ((Hid' & _) & _ & Hu & Hkeys & Hstates).
    split_and!; [|done|].
    + unfold Machine.ID in *. congruence.
    + intros n h' Hn.
      destruct (proj1 (Hkeys n)) as [h Hh]; [eauto|].
      destruct (Hstates n h h' Hh Hn) as ((-> & _) & _). by eapply Hhist.
Qed.

(** X10: when [refresh] completes on a fresh value, [allSystemDatasets] is
    what [appendIfNotPresent] makes of the boots bucket and of a flat list
    that holds exactly the system datasets of the machines and of their
    history states. *)
Theorem all_system_datasets_cover_states {helpers : Helpers}
    (order : MapOrder) (heap : gmap nat Zfs) (cmdline : string) (z : nat)
    (machines' : Machines) (err : option error) :
  refresh order heap (emptyMachines cmdline z) = Some (machines', err) →
  ∃ zfsState flat,
    heap !! z = Some zfsState
    ∧ Machines.allSystemDatasets machines'
      = appendIfNotPresent flat (boots (triageOf order zfsState ∅)) true
    ∧ ∀ d, d ∈ flat ↔
           ∃ k m, Machines.all machines' !! k = Some m
                  ∧ (d ∈ State.SystemDatasets (Machine.State m)
                     ∨ ∃ n h, Machine.History m !! n = Some h
                              ∧ d ∈ State.SystemDatasets h).
Proof.
  intros (zfsState & uds & machinesAll & flat & Hz & Hatt & -> & ->)
    %refresh_Some.
  exists zfsState, flat. split_and!; [done..|]. simpl.
  by destruct (attachMachines_sorted_lookup order _ _ _ _ _ _ Hatt).
Qed.

(** The pass over the example inventory: its machine is stored under its
    id. *)
Lemma refreshed_machines_keyed_by_id_witness :
  ∃ machines',
    refresh (helpers := SpecHelpers.specHelpers) Examples.ascending
      Examples.heap (emptyMachines Examples.cmdline 7)
    = Some (machines', None)
    ∧ is_Some (Machines.all machines' !! "rpool/ROOT/u1")
    ∧ Machines.cmdline machines' = Examples.cmdline
    ∧ ∀ k m, Machines.all machines' !! k = Some m →
             Machine.ID m = k ∧ Machine.Users m = ∅.
Proof.
  eexists. split; [vm_compute; reflexivity|].
  split; [vm_compute; by eexists|].
  destruct (refreshed_machines_keyed_by_id
              (helpers := SpecHelpers.specHelpers) Examples.ascending
              Examples.heap Examples.cmdline 7 _ None
              ltac:(vm_compute; reflexivity))
    as (_ & Hc & _ & zfsState & _ & _ & Hm).
  split; [exact Hc|]. intros k m Hk.
  destruct (Hm k m Hk) as (? & ? & _). done.
Defined.

(** The pass over the example inventory: its flat list holds the system
    datasets of the machine and of its two history states. *)
Lemma all_system_datasets_cover_states_witness :
  ∃ machines' zfsState flat,
    refresh (helpers := SpecHelpers.specHelpers) Examples.ascending
      Examples.heap (emptyMachines Examples.cmdline 7)
    = Some (machines', None)
    ∧ Examples.heap !! 7%nat = Some zfsState
    ∧ Machines.allSystemDatasets machines'
      = appendIfNotPresent (Helpers := SpecHelpers.specHelpers) flat
          (boots (triageOf (helpers := SpecHelpers.specHelpers)
                    Examples.ascending zfsState ∅)) true
    ∧ ∀ d, d ∈ flat ↔
           ∃ k m, Machines.all machines' !! k = Some m
                  ∧ (d ∈ State.SystemDatasets (Machine.State m)
                     ∨ ∃ n h, Machine.History m !! n = Some h
                              ∧ d ∈ State.SystemDatasets h).
Proof.
  eexists.
  destruct (all_system_datasets_cover_states
              (helpers := SpecHelpers.specHelpers) Examples.ascending
              Examples.heap Examples.cmdline 7 _ None
              ltac:(vm_compute; reflexivity))
    as (zfsState & flat & Hz & Hflat & Helem).
  exists zfsState, flat. split_and!; [vm_compute; reflexivity | done..].
Defined.

(** ** What [Refresh] keeps *)

Lemma refresh_keeps_fields {helpers : Helpers} (order : MapOrder)
    (heap : gmap nat Zfs) (machines machines' : Machines)
    (err : option error) :
  refresh order heap machines = Some (machines', err) →
  Machines.cmdline machines' = Machines.cmdline machines
  ∧ Machines.z machines' = Machines.z machines
  ∧ Machines.nextState machines' = Machines.nextState machines.
Proof.
  unfold refresh.
  destruct (heap !! Machines.z machines) as [zfsState|]; [|done]. simpl.
  destruct (withOrigins _ _) as [uds|]; [|done]. simpl.
  destruct (attachMachines _ _ _ _ _ _ _) as [attached|]; [|done]. simpl.
  by intros [= <- <-].
Qed.

(** X11: however [Refresh] ends, the receiver keeps its command line and
    the address of its adapter, and no other object of the heap changes.
    When it returns a nil error, [nextState] is nil and the adapter is the
    refreshed one. *)
Theorem Refresh_keeps_cmdline_and_adapter {helpers : Helpers}
    (order : MapOrder) (heap heap' : gmap nat Zfs)
    (machines machines' : Machines) (result : outcome) :
  Refresh order heap machines = (heap', machines', result) →
  Machines.cmdline machines' = Machines.cmdline machines
  ∧ Machines.z machines' = Machines.z machines
  ∧ (∀ a, a ≠ Machines.z machines → heap' !! a = heap !! a)
  ∧ (result = Returned None →
     Machines.nextState machines' = None
     ∧ ∃ zfsState,
         heap !! Machines.z machines = Some zfsState
         ∧ heap' !! Machines.z machines = Some (zfsRefresh zfsState).1).
Proof.
  unfold Refresh. simpl.
  destruct (heap !! Machines.z machines) as [zfsState|] eqn:Hz;
    [|intros [= <- <- <-]; done].
  destruct (zfsRefresh zfsState) as [zfsState' [e|]] eqn:Hre.
  - intros [= <- <- <-]. split_and!; [done.. | | done].
    intros a Ha. by rewrite lookup_insert_ne.
  - destruct (refresh _ _ _) as [[new [e|]]|] eqn:Hnew;
      intros [= <- <- <-].
    + split_and!; [done.. | | done].
      intros a Ha. by rewrite lookup_insert_ne.
    + apply refresh_keeps_fields in Hnew as (Hc & Hz' & Hn).
      split_and!; [done | done | |].
      * intros a Ha. by rewrite lookup_insert_ne.
      * intros _. split; [by rewrite Hn|]. exists zfsState.
        split; [done|]. rewrite Hre. by rewrite lookup_insert_eq.
    + split_and!; [done.. | | done].
      intros a Ha. by rewrite lookup_insert_ne.
Qed.

(** A scan of the example inventory that succeeds: the receiver is
    assembled from it, keeps its command line and its adapter, and has no
    next state. *)
Lemma Refresh_keeps_cmdline_and_adapter_witness :
  let heap : gmap nat SpecHelpers.MockZfs :=
    {[ 7%nat := {| SpecHelpers.cache := [];
                   SpecHelpers.scans := [Some Examples.inventory] |} ]} in
  ∃ heap' machines',
    Refresh (helpers := SpecHelpers.specHelpers) Examples.ascending
      heap (emptyMachines Examples.cmdline 7)
    = (heap', machines', Returned None)
    ∧ Machines.cmdline machines' = Examples.cmdline
    ∧ Machines.z machines' = 7%nat
    ∧ Machines.nextState machines' = None.
Proof.
  intros heap.
  pose (r := Refresh (helpers := SpecHelpers.specHelpers) Examples.ascending
               heap (emptyMachines Examples.cmdline 7)).
  assert (Refresh (helpers := SpecHelpers.specHelpers) Examples.ascending
            heap (emptyMachines Examples.cmdline 7)
          = (r.1.1, r.1.2, Returned None)) as Hr
    by (vm_compute; reflexivity).
  exists r.1.1, r.1.2. split; [exact Hr|].
  destruct (Refresh_keeps_cmdline_and_adapter
              (helpers := SpecHelpers.specHelpers) Examples.ascending
              heap r.1.1 (emptyMachines Examples.cmdline 7) r.1.2
              (Returned None) Hr) as (Hc & Hz & _ & Hn).
  split_and!; [exact Hc | exact Hz | by apply Hn].
Defined.

(** ** The user and the id read off the name of a user dataset *)

Section NameFacts.

#[local] Arguments String.append !s1 s2 : simpl nomatch.

(** A string has one piece iff the separator does not occur in it. *)
Lemma Split_one_piece (s : string) (sep : ascii) :
  (length (Split s sep) ≤ 1)%nat ↔ LastIndex s sep = (-1)%Z.
Proof.
  induction s as [|a s IH]; simpl; [done|].
  pose proof (Split_nonempty s sep) as Hne.
  pose proof (LastIndex_lower_bound s sep) as Hlb.
  destruct (Ascii.eqb_spec a sep) as [->|Hneq].
  - simpl. destruct (Split s sep); [done|].
    destruct (Z.leb_spec 0 (LastIndex s sep)); simpl; split; lia.
  - assert (length (match Split s sep with
                    | [] => [String a ""]
                    | x :: xs => String a x :: xs
                    end) = length (Split s sep)) as ->
      by (by destruct (Split s sep)).
    rewrite IH. destruct (Z.leb_spec 0 (LastIndex s sep)); split; lia.
Qed.

(** A list of two pieces or more is joined from all its pieces but the
    last, the separator and the last piece. *)
Lemma Join_init_last (l : list string) (sep : string) :
  (1 < length l)%nat →
  Join l sep
  = Join (take (length l - 1) l) sep +:+ sep +:+ List.last l "".
Proof.
  induction l as [|x l IH]; simpl; [lia|]. intros Hlen.
  destruct l as [|y l]; [simpl in Hlen; lia|].
  destruct l as [|z l]; [done|].
  change (Join (x :: y :: z :: l) sep)
    with (x +:+ sep +:+ Join (y :: z :: l) sep).
  rewrite IH by (simpl; lia).
  replace (length (y :: z :: l) - 0)%nat with (S (length (y :: z :: l) - 1))
    by (simpl; lia).
  change (take (S (length (y :: z :: l) - 1)) (x :: y :: z :: l))
    with (x :: take (length (y :: z :: l) - 1) (y :: z :: l)).
  change (List.last (x :: y :: z :: l) "")
    with (List.last (y :: z :: l) "").
  replace (length (y :: z :: l) - 1)%nat with (S (length l)) by (simpl; lia).
  change (Join (x :: take (S (length l)) (y :: z :: l)) sep)
    with (x +:+ sep +:+ Join (take (S (length l)) (y :: z :: l)) sep).
  by rewrite !append_associative.
Qed.

Lemma last_Split_no_separator (s : string) (sep : ascii) :
  LastIndex (List.last (Split s sep) "") sep = (-1)%Z.
Proof.
  pose proof (Split_no_separator s sep) as Hall.
  pose proof (Split_nonempty s sep) as Hne.
  induction (Split s sep) as [|x xs IH]; [done|].
  inversion Hall; subst. destruct xs as [|y ys]; [done|]. by apply IH.
Qed.

(** The string around its last separator, when it has one. *)
Lemma Split_around_last (s : string) (sep : ascii) :
  (0 ≤ LastIndex s sep)%Z →
  (1 <? length (Split s sep))%nat = true
  ∧ s = Join (take (length (Split s sep) - 1) (Split s sep)) (String sep "")
          +:+ String sep "" +:+ List.last (Split s sep) "".
Proof.
  intros Hocc.
  assert (1 < length (Split s sep))%nat as Hlen.
  { destruct (decide (length (Split s sep) ≤ 1)%nat) as [Hle|]; [|lia].
    apply Split_one_piece in Hle. lia. }
  split; [by apply Nat.ltb_lt|].
  rewrite <- Join_init_last by done. by rewrite Join_Split.
Qed.

Lemma Split_without_separator (s : string) (sep : ascii) :
  LastIndex s sep = (-1)%Z →
  (1 <? length (Split s sep))%nat = false ∧ hd "" (Split s sep) = s.
Proof.
  intros Hle%Split_one_piece. split; [by apply Nat.ltb_ge|].
  pose proof (Join_Split s sep) as Hj.
  pose proof (Split_nonempty s sep).
  destruct (Split s sep) as [|x [|y l]]; [done | done | simpl in Hle; lia].
Qed.

End NameFacts.

(** X12: the user and the id of a user state are the two parts of the base
    name of its root around the last delimiter.  For a dataset that is not
    a snapshot the delimiter is ["_"]: the base name is the user, ["_"] and
    the id, and the id has no ["_"]; without ["_"] the user is the whole
    base name and the id is empty.  For a snapshot the id is what follows
    the last ["@"] of the base name, and is empty without ["@"]. *)
Theorem user_and_id_of_name (r : DatasetPtr) (dprop : originAndChildren) :
  let base := Base (zfs.Name (deref r)) in
  let id := UserState.ID (userStateOf r dprop) in
  ((0 ≤ LastIndex base "_")%Z →
   ∃ tail, base = userOf r +:+ "_" +:+ tail
           ∧ LastIndex tail "_" = (-1)%Z
           ∧ (zfs.IsSnapshot (deref r) = false → id = tail))
  ∧ (LastIndex base "_" = (-1)%Z →
     userOf r = base ∧ (zfs.IsSnapshot (deref r) = false → id = ""))
  ∧ (zfs.IsSnapshot (deref r) = true →
     ((0 ≤ LastIndex base "@")%Z →
      ∃ head, base = head +:+ "@" +:+ id ∧ LastIndex id "@" = (-1)%Z)
     ∧ (LastIndex base "@" = (-1)%Z → id = "")).
Proof.
  intros base id. subst id. unfold userOf, userStateOf. fold base. simpl.
  split_and!.
  - intros Hocc. destruct (Split_around_last base "_" Hocc) as [Hlen Hbase].
    rewrite Hlen. exists (List.last (Split base "_") "").
    split_and!; [done | apply last_Split_no_separator |].
    intros ->. by rewrite Hlen.
  - intros Hno. destruct (Split_without_separator base "_" Hno) as [Hlen Hhd].
    rewrite Hlen. split; [done|]. intros ->. by rewrite Hlen.
  - intros ->. split.
    + intros Hocc. destruct (Split_around_last base "@" Hocc) as [Hlen Hbase].
      rewrite Hlen. eexists. split; [exact Hbase|].
      apply last_Split_no_separator.
    + intros Hno. destruct (Split_without_separator base "@" Hno) as [-> _].
      done.
Qed.

(** ** One machine at most for a dataset *)

Lemma takes_not_declines {helpers : Helpers} (d : DatasetPtr)
    (origin : option string) (m m' : Machine) :
  takes d origin m m' → ¬ declines d origin m.
Proof.
  intros Htakes (Hchild & Hroot & Hhist).
  inversion Htakes as [Hc | Hc Hr | k h Hc Hr Hk Hh]; subst.
  - congruence.
  - congruence.
  - specialize (Hhist k h Hk). congruence.
Qed.

(** X13: [attachSystemAndHistory] adds and removes no machine.  It returns
    false exactly when every machine declines the dataset, and the machines
    are then unchanged; when it returns true, one machine has taken the
    dataset (as a child of its root, as the root of a new history state or
    as a child of one of its history states) and every other machine is as
    it was. *)
Theorem dataset_attached_to_one_machine {helpers : Helpers}
    (order : MapOrder) (all : gmap string Machine) (d : DatasetPtr)
    (origin : option string) :
  let r := attachSystemAndHistory order all d origin in
  (∀ k, is_Some (r.1 !! k) ↔ is_Some (all !! k))
  ∧ (r.2 = false ↔ ∀ k m, all !! k = Some m → declines d origin m)
  ∧ (r.2 = false → r.1 = all)
  ∧ (r.2 = true →
     ∃ k m m', all !! k = Some m
               ∧ takes d origin m m'
               ∧ r.1 !! k = Some m'
               ∧ ∀ k0, k0 ≠ k → r.1 !! k0 = all !! k0).
Proof.
  intros r. subst r.
  destruct (attachSystemAndHistory_spec order d origin all)
    as [[-> Hall] | (pre & k & post & m & m' & _ & Hk & Htakes & -> & _)];
    simpl.
  - split_and!; [done | done | done | done].
  - split_and!.
    + intros k0. destruct (decide (k0 = k)) as [->|Hne].
      * rewrite lookup_insert_eq, Hk. split; eauto.
      * by rewrite lookup_insert_ne.
    + split; [done|]. intros Hall.
      by destruct (takes_not_declines d origin m m' Htakes (Hall k m Hk)).
    + done.
    + intros _. exists k, m, m'. split_and!; [done | done | |].
      * by rewrite lookup_insert_eq.
      * intros k0 Hne. by rewrite lookup_insert_ne.
Qed.
